(** * Stripe payment-failure monitor: a shallow embedding of [src/index.js]

    The service is one Express module.  Its handlers are embedded as
    computations in a state-and-exception monad over the process state
    (the activity log, the console, the mail submissions made so far); the
    JavaScript values that travel through them (the parsed webhook event, the
    customer object) are embedded as an inductive type of JSON values, with the
    runtime operations the source applies to them (property access, optional
    chaining, [||], template-literal conversion, [toFixed], [trim]) written
    out.

    Conventions of the embedding:
    - a JavaScript string is a [string] holding its UTF-8 bytes; case mapping
      is the ASCII one;
    - a JSON number is an integer [JNum z]; computed numbers are [NaN] or an
      exact rational.  What the embedding prints agrees with what the
      runtime prints for IEEE doubles on the integers of magnitude at most
      10^15 and their hundredths, which is where the numeric statements
      below are made;
    - a thrown value is an [Error] object carrying a [message], which is what
      the runtime, the Stripe SDK and the Gmail client throw;
    - [await] is sequencing: one request is followed from start to end. *)

From Stdlib Require Import ZArith QArith Qround Qabs List String Ascii Bool Lia.
Import ListNotations.
Local Open Scope string_scope.
Local Open Scope Z_scope.
Set Warnings "-register-all".

(** ** Thrown values and partial results *)

Record JsError := mkError { emessage : string }.

Definition Res (A : Type) : Type := (JsError + A)%type.

Definition rret {A} (a : A) : Res A := inr a.
Definition rthrow {A} (m : string) : Res A := inl (mkError m).
Definition rbind {A B} (r : Res A) (k : A -> Res B) : Res B :=
  match r with
  | inl e => inl e
  | inr a => k a
  end.

Declare Scope res_scope.
Delimit Scope res_scope with res.
Notation "'let?' x ':=' r 'in' k" := (rbind r (fun x => k))
  (at level 10, x name, r at level 100, k at level 200) : res_scope.

(** ** JSON values *)

(** What [JSON.parse] builds.  An object is the list of its own properties;
    [lookup] takes the first binding of a key. *)
Inductive JsVal : Type :=
| JUndefined
| JNull
| JBool (b : bool)
| JNum (z : Z)
| JStr (s : string)
| JArr (xs : list JsVal)
| JObj (ps : list (string * JsVal)).

Fixpoint lookup (k : string) (ps : list (string * JsVal)) : option JsVal :=
  match ps with
  | [] => None
  | (k', v) :: ps' => if String.eqb k k' then Some v else lookup k ps'
  end.

Definition has_own (k : string) (ps : list (string * JsVal)) : bool :=
  match lookup k ps with Some _ => true | None => false end.

(** ToBoolean. *)
Definition truthy (v : JsVal) : bool :=
  match v with
  | JUndefined | JNull => false
  | JBool b => b
  | JNum z => negb (z =? 0)
  | JStr s => negb (String.eqb s EmptyString)
  | JArr _ | JObj _ => true
  end.

Definition nullish (v : JsVal) : bool :=
  match v with
  | JUndefined | JNull => true
  | _ => false
  end.

(** [v === 'literal']. *)
Definition strict_eq_str (v : JsVal) (lit : string) : bool :=
  match v with
  | JStr s => String.eqb s lit
  | _ => false
  end.

(** ** Strings: decimal digits, case, trimming *)

Definition digit_char (d : Z) : ascii := ascii_of_N (48 + Z.to_N d).

(** The decimal digits of a non-negative integer, most significant first. *)
Fixpoint decimal_fuel (fuel : nat) (n : Z) : string :=
  match fuel with
  | O => EmptyString
  | S f =>
      (if n <? 10 then EmptyString else decimal_fuel f (n / 10))
        ++ String (digit_char (n mod 10)) EmptyString
  end.

Definition decimal (n : Z) : string :=
  decimal_fuel (S (Z.to_nat (Z.log2 n))) n.

(** Number::toString on an integer. *)
Definition int_to_string (z : Z) : string :=
  if z <? 0 then "-" ++ decimal (- z) else decimal z.

Definition upper_char (c : ascii) : ascii :=
  let n := N_of_ascii c in
  if ((97 <=? n) && (n <=? 122))%N then ascii_of_N (n - 32) else c.

Fixpoint toUpperCase (s : string) : string :=
  match s with
  | EmptyString => EmptyString
  | String c s' => String (upper_char c) (toUpperCase s')
  end.

Definition is_ws (c : ascii) : bool :=
  let n := N_of_ascii c in
  ((n =? 32) || ((9 <=? n) && (n <=? 13)))%N.

Fixpoint trimStart (s : string) : string :=
  match s with
  | EmptyString => EmptyString
  | String c s' => if is_ws c then trimStart s' else s
  end.

Fixpoint trimEnd (s : string) : string :=
  match s with
  | EmptyString => EmptyString
  | String c s' =>
      let r := trimEnd s' in
      if is_ws c && String.eqb r EmptyString then EmptyString else String c r
  end.

Definition trim (s : string) : string := trimEnd (trimStart s).

Fixpoint join (sep : string) (l : list string) : string :=
  match l with
  | [] => EmptyString
  | [x] => x
  | x :: r => x ++ sep ++ join sep r
  end.

(** ** Property access *)

Fixpoint parse_digits (s : string) (acc : nat) : option nat :=
  match s with
  | EmptyString => Some acc
  | String c s' =>
      let n := N_of_ascii c in
      if ((48 <=? n) && (n <=? 57))%N
      then parse_digits s' (10 * acc + N.to_nat (n - 48))%nat
      else None
  end.

(** A key is an array index when it is the canonical decimal of a natural. *)
Definition index_of_key (k : string) : option nat :=
  match k with
  | EmptyString => None
  | _ =>
      match parse_digits k 0 with
      | Some n => if String.eqb (decimal (Z.of_nat n)) k then Some n else None
      | None => None
      end
  end.

Definition type_error_read (v : JsVal) (k : string) : string :=
  "Cannot read properties of "
    ++ (match v with JNull => "null" | _ => "undefined" end)
    ++ " (reading '" ++ k ++ "')".

(** [v.k] and [v[k]].  Reading a property of [undefined] or [null] throws;
    own properties only (the keys the service reads are never inherited
    ones). *)
Definition get_prop (v : JsVal) (k : string) : Res JsVal :=
  match v with
  | JUndefined | JNull => rthrow (type_error_read v k)
  | JBool _ | JNum _ => rret JUndefined
  | JStr s =>
      if String.eqb k "length" then rret (JNum (Z.of_nat (String.length s)))
      else match index_of_key k with
           | Some i =>
               match String.get i s with
               | Some c => rret (JStr (String c EmptyString))
               | None => rret JUndefined
               end
           | None => rret JUndefined
           end
  | JArr xs =>
      if String.eqb k "length" then rret (JNum (Z.of_nat (List.length xs)))
      else match index_of_key k with
           | Some i => rret (nth i xs JUndefined)
           | None => rret JUndefined
           end
  | JObj ps =>
      match lookup k ps with
      | Some x => rret x
      | None => rret JUndefined
      end
  end.

(** [base?.k] and [base?.[k]], where evaluating [base] may itself throw. *)
Definition opt_chain (base : Res JsVal) (k : string) : Res JsVal :=
  (let? b := base in
   if nullish b then rret JUndefined else get_prop b k)%res.

(** [a || b]: [b] is the result only when [a] is falsy. *)
Definition or_else (a b : Res JsVal) : Res JsVal :=
  (let? x := a in if truthy x then rret x else b)%res.

(** ** Conversion to string (template literals) *)

(** ToString.  An object converts through [Object.prototype.toString] unless
    an own [toString] property (never callable in parsed JSON) shadows it, in
    which case no method yields a primitive and the conversion throws; an
    array converts through [Array.prototype.join]. *)
Fixpoint ToString (v : JsVal) : Res string :=
  match v with
  | JUndefined => rret "undefined"
  | JNull => rret "null"
  | JBool b => rret (if b then "true" else "false")
  | JNum z => rret (int_to_string z)
  | JStr s => rret s
  | JArr xs =>
      (fix join_elems (l : list JsVal) : Res string :=
         match l with
         | [] => rret EmptyString
         | x :: r =>
             (let? sx := (if nullish x then rret EmptyString else ToString x) in
              match r with
              | [] => rret sx
              | _ => let? sr := join_elems r in rret (sx ++ "," ++ sr)
              end)%res
         end) xs
  | JObj ps =>
      if has_own "toString" ps
      then rthrow "Cannot convert object to primitive value"
      else rret "[object Object]"
  end.

(** ** Numbers: [toFixed] *)

(** A computed Number: not-a-number or an exact rational. *)
Inductive number : Type :=
| NaN
| Fin (q : Q).

Definition num_div (x : number) (d : Z) : number :=
  match x with
  | NaN => NaN
  | Fin q => Fin (q / inject_Z d)%Q
  end.

Definition num_mul (x : number) (d : Z) : number :=
  match x with
  | NaN => NaN
  | Fin q => Fin (q * inject_Z d)%Q
  end.

Fixpoint zeros (n : nat) : string :=
  match n with
  | O => EmptyString
  | S n' => String "0" (zeros n')
  end.

(** Number.prototype.toFixed(f), following the steps of ECMA-262: the sign is
    split off, [n] is the integer nearest to [x * 10^f] (the larger one on a
    tie), its digits are left-padded with zeros to [f + 1] characters and the
    point is inserted before the last [f] of them.  (The exponential form the
    standard prescribes from 10^21 upwards is outside the range of the
    embedding.) *)
Definition toFixed (f : nat) (x : number) : string :=
  match x with
  | NaN => "NaN"
  | Fin q =>
      let s := if Qle_bool 0 q then EmptyString else "-" in
      let ax := Qabs q in
      let n := Qfloor (ax * inject_Z (10 ^ Z.of_nat f) + (1 # 2))%Q in
      let m := if n =? 0 then "0" else decimal n in
      let k := String.length m in
      let m := if (k <=? f)%nat then zeros (f + 1 - k) ++ m else m in
      let k := if (k <=? f)%nat then (f + 1)%nat else k in
      if (f =? 0)%nat then s ++ m
      else s ++ substring 0 (k - f) m ++ "." ++ substring (k - f) f m
  end.

(** ** Base64 (RFC 4648), as [Buffer.prototype.toString('base64')] *)

Definition b64_alphabet : string :=
  "ABCDEFGHIJKLMNOPQRSTUVWXYZabcdefghijklmnopqrstuvwxyz0123456789+/".

Definition b64_char (n : N) : ascii :=
  match String.get (N.to_nat n) b64_alphabet with
  | Some c => c
  | None => "="%char
  end.

Fixpoint base64 (s : string) : string :=
  match s with
  | EmptyString => EmptyString
  | String a EmptyString =>
      let x := N_of_ascii a in
      String (b64_char (x / 4))
        (String (b64_char ((x mod 4) * 16)) "==")
  | String a (String b EmptyString) =>
      let x := N_of_ascii a in
      let y := N_of_ascii b in
      String (b64_char (x / 4))
        (String (b64_char ((x mod 4) * 16 + y / 16))
           (String (b64_char ((y mod 16) * 4)) "="))
  | String a (String b (String c r)) =>
      let x := N_of_ascii a in
      let y := N_of_ascii b in
      let z := N_of_ascii c in
      String (b64_char (x / 4))
        (String (b64_char ((x mod 4) * 16 + y / 16))
           (String (b64_char ((y mod 16) * 4 + z / 64))
              (String (b64_char (z mod 64)) (base64 r))))
  end%N.

(** [s.replace(/c/g, d)] for a single character [c]. *)
Fixpoint replace_all (c d : ascii) (s : string) : string :=
  match s with
  | EmptyString => EmptyString
  | String x s' => String (if Ascii.eqb x c then d else x) (replace_all c d s')
  end.

(** [s.replace(/=+$/, '')]. *)
Fixpoint strip_trailing_eq (s : string) : string :=
  match s with
  | EmptyString => EmptyString
  | String c s' =>
      let r := strip_trailing_eq s' in
      if Ascii.eqb c "=" && String.eqb r EmptyString then EmptyString else String c r
  end.

(** ** The process: environment, state, responses *)

(** [process.env]: a variable is unset or holds a string. *)
Record Env := mkEnv {
  STRIPE_SECRET_KEY : option string;
  STRIPE_WEBHOOK_SECRET : option string;
  GMAIL_CLIENT_ID : option string;
  GMAIL_CLIENT_SECRET : option string;
  GMAIL_REFRESH_TOKEN : option string;
  ALERT_EMAIL_var : option string
}.

(** [!!process.env.X]: an unset variable and the empty string are falsy. *)
Definition env_truthy (v : option string) : bool :=
  match v with
  | Some s => negb (String.eqb s EmptyString)
  | None => false
  end.

Record LogEntry := mkLogEntry {
  timestamp : string;
  level : string;
  message : string
}.

(** The mutable state of the process as one request sees it: the
    [recentLogs] array, what was printed, how often the clock was read, and
    the calls made to the two collaborators (raw messages handed to the Gmail
    client, customer references handed to the Stripe client). *)
Record State := mkState {
  recentLogs : list LogEntry;
  console : list string;
  clock_reads : nat;
  outbox : list string;
  lookups : list JsVal
}.

Definition initial_state : State := mkState [] [] 0 [] [].

Inductive Body : Type :=
| SendText (s : string)
| SendJson (v : JsVal).

Record Response := mkResponse {
  status : Z;
  body : Body
}.

Record Request := mkRequest {
  req_body : string;
  stripe_signature : option string
}.

(** The object literal built by the webhook handler. *)
Record PaymentData := mkPaymentData {
  payment_intent_id : JsVal;
  amount : JsVal;
  currency : JsVal;
  failure_code : JsVal;
  failure_message : JsVal;
  payment_method_type : JsVal;
  created : JsVal;
  customer_name : JsVal;
  customer_email : JsVal
}.

Definition set_customer_name (pd : PaymentData) (v : JsVal) : PaymentData :=
  mkPaymentData (payment_intent_id pd) (amount pd) (currency pd)
    (failure_code pd) (failure_message pd) (payment_method_type pd)
    (created pd) v (customer_email pd).

Definition set_customer_email (pd : PaymentData) (v : JsVal) : PaymentData :=
  mkPaymentData (payment_intent_id pd) (amount pd) (currency pd)
    (failure_code pd) (failure_message pd) (payment_method_type pd)
    (created pd) (customer_name pd) v.

(** ** The handler monad: state and exceptions *)

Definition M (A : Type) : Type := State -> Res A * State.

Definition ret {A} (a : A) : M A := fun st => (inr a, st).

Definition bind {A B} (m : M A) (k : A -> M B) : M B :=
  fun st =>
    match m st with
    | (inl e, st') => (inl e, st')
    | (inr a, st') => k a st'
    end.

Definition lift {A} (r : Res A) : M A := fun st => (r, st).

(** [try { body } catch (e) { handler e }]: the state changes made before the
    throw are kept. *)
Definition try_catch {A} (body : M A) (handler : JsError -> M A) : M A :=
  fun st =>
    match body st with
    | (inl e, st') => handler e st'
    | (inr a, st') => (inr a, st')
    end.

Declare Scope js_scope.
Delimit Scope js_scope with js.
Notation "x <- m ;; k" := (bind m (fun x => k))
  (at level 61, m at next level, right associativity) : js_scope.
Notation "m ;;; k" := (bind m (fun _ => k))
  (at level 61, right associativity) : js_scope.

(** [Array.prototype.slice(start, end)] with its clamping of both bounds. *)
Definition slice {A} (start stop : Z) (l : list A) : list A :=
  let len := Z.of_nat (List.length l) in
  let k := if start <? 0 then Z.max (len + start) 0 else Z.min start len in
  let final := if stop <? 0 then Z.max (len + stop) 0 else Z.min stop len in
  firstn (Z.to_nat (final - k)) (skipn (Z.to_nat k) l).

Definition LF : string := String "010"%char EmptyString.
Definition DQ : string := String "034"%char EmptyString.

(** [v || 'literal'] on a value already at hand. *)
Definition or_default (v : JsVal) (lit : string) : JsVal :=
  if truthy v then v else JStr lit.

(** [c?.toUpperCase() || 'USD']: nothing is called on [undefined] or [null];
    a string is upper-cased; any other value has no callable [toUpperCase]. *)
Definition currency_text (c : JsVal) : Res JsVal :=
  match c with
  | JUndefined | JNull => rret (JStr "USD")
  | JStr s => rret (or_default (JStr (toUpperCase s)) "USD")
  | _ => rthrow "paymentData.currency?.toUpperCase is not a function"
  end.

Definition entry_json (e : LogEntry) : JsVal :=
  JObj [("timestamp", JStr (timestamp e));
        ("level", JStr (level e));
        ("message", JStr (message e))].

(** [JSON] view of a [paymentData] object, its keys in the order the
    [/test] handler writes them (lines 138-148). *)
Definition paymentData_json (pd : PaymentData) : JsVal :=
  JObj [("customer_name", customer_name pd);
        ("customer_email", customer_email pd);
        ("amount", amount pd);
        ("currency", currency pd);
        ("payment_method_type", payment_method_type pd);
        ("failure_code", failure_code pd);
        ("failure_message", failure_message pd);
        ("payment_intent_id", payment_intent_id pd);
        ("created", created pd)].

(** The descriptor served by [GET /], lines 100-117. *)
Definition service_descriptor : JsVal :=
  JObj [("service", JStr "Stripe Payment Failure Monitor");
        ("status", JStr "running");
        ("endpoints",
         JObj [("/", JStr "Service status and available endpoints");
               ("/health", JStr "Health check endpoint");
               ("/webhook", JStr "Stripe webhook endpoint for payment events");
               ("/logs", JStr "View recent activity logs");
               ("/test", JStr "Test payment failure alert")]);
        ("webhook_events",
         JArr [JStr "payment_intent.payment_failed";
               JStr "invoice.payment_failed";
               JStr "charge.failed"])].

Definition get_root : M Response :=
  fun st => (inr (mkResponse 200 (SendJson service_descriptor)), st).

(** What the module is given by its host and its collaborators. *)
Record World := mkWorld {
  (** [process.env], captured when the module is loaded. *)
  env : Env;
  (** The system clock: [clock n] is [new Date().toISOString()] at the
      [n]-th reading. *)
  clock : nat -> string;
  (** [new Date(ms).toLocaleString()], which depends on the host's locale and
      time zone. *)
  toLocaleString : number -> string;
  (** The runtime's conversion of a string to a Number. *)
  StringToNumber : string -> number;
  (** The results of the calls
      [stripeClient.webhooks.constructEvent(body, sig, secret)],
      [stripeClient.customers.retrieve(id)] and
      [gmail.users.messages.send({userId, requestBody: {raw}})]. *)
  constructEvent : string -> option string -> option string -> Res JsVal;
  customers_retrieve : JsVal -> Res JsVal;
  gmail_send : string -> Res unit
}.

(** ** The service *)

Section Service.

Variable w : World.

Definition ALERT_EMAIL : string :=
  match ALERT_EMAIL_var (env w) with
  | Some s => if String.eqb s EmptyString then "admin@example.com" else s
  | None => "admin@example.com"
  end.

(** ToNumber; an array or object goes through its primitive, a string. *)
Definition ToNumber (v : JsVal) : Res number :=
  match v with
  | JUndefined => rret NaN
  | JNull => rret (Fin 0)
  | JBool b => rret (Fin (if b then 1 else 0))
  | JNum z => rret (Fin (inject_Z z))
  | JStr s => rret (StringToNumber w s)
  | JArr _ | JObj _ => (let? s := ToString v in rret (StringToNumber w s))%res
  end.

(** [log(message, level)], lines 37-43. *)
Definition log (message level : string) : M unit :=
  fun st =>
    let timestamp := clock w (clock_reads st) in
    let logEntry := mkLogEntry timestamp level message in
    let line :=
      "[" ++ timestamp ++ "] " ++ toUpperCase level ++ ": " ++ message in
    let unshifted := logEntry :: recentLogs st in
    let logs :=
      if (100 <? List.length unshifted)%nat then removelast unshifted
      else unshifted in
    (inr tt,
     mkState logs (console st ++ [line]) (S (clock_reads st))
       (outbox st) (lookups st)).

(** The call to the Gmail client: the attempt is recorded, its outcome is
    the collaborator's. *)
Definition gmail_users_messages_send (raw : string) : M unit :=
  fun st =>
    (gmail_send w raw,
     mkState (recentLogs st) (console st) (clock_reads st)
       (outbox st ++ [raw]) (lookups st)).

(** The call to the Stripe client for a customer. *)
Definition stripe_customers_retrieve (id : JsVal) : M JsVal :=
  fun st =>
    (customers_retrieve w id,
     mkState (recentLogs st) (console st) (clock_reads st)
       (outbox st) (lookups st ++ [id])).

(** Line 48. *)
Definition subject (paymentData : PaymentData) : Res string :=
  (let? name :=
     ToString (or_default (customer_name paymentData) "Unknown Customer") in
   rret ("🚨 Payment Failed Alert - " ++ name))%res.

(** Lines 50-67, the interpolations evaluated in the order they appear. *)
Definition emailBody (paymentData : PaymentData) : Res string :=
  (let? name := ToString (or_default (customer_name paymentData) "Unknown") in
   let? email :=
     ToString (or_default (customer_email paymentData) "Not provided") in
   let? amt := ToNumber (amount paymentData) in
   let? cur0 := currency_text (currency paymentData) in
   let? cur := ToString cur0 in
   let? method :=
     ToString (or_default (payment_method_type paymentData) "Unknown") in
   let? code :=
     ToString (or_default (failure_code paymentData) "Not provided") in
   let? msg :=
     ToString (or_default (failure_message paymentData)
                 "No details provided") in
   let? pid := ToString (payment_intent_id paymentData) in
   let? secs := ToNumber (created paymentData) in
   let? pid' := ToString (payment_intent_id paymentData) in
   rret (trim
     (LF ++
      "A payment failure has been detected in your Stripe account:" ++ LF ++
      LF ++
      "Customer: " ++ name ++ LF ++
      "Customer Email: " ++ email ++ LF ++
      "Amount: $" ++ toFixed 2 (num_div amt 100) ++ " " ++ cur ++ LF ++
      "Payment Method: " ++ method ++ LF ++
      "Failure Code: " ++ code ++ LF ++
      "Failure Message: " ++ msg ++ LF ++
      "Payment Intent ID: " ++ pid ++ LF ++
      "Timestamp: " ++ toLocaleString w (num_mul secs 1000) ++ LF ++
      LF ++
      "Please review this failed payment in your Stripe dashboard:" ++ LF ++
      "https://dashboard.stripe.com/payments/" ++ pid' ++ LF ++
      LF ++
      "---" ++ LF ++
      "Automated alert from Stripe Payment Monitor" ++ LF ++
      "    ")))%res.

(** Lines 69-76. *)
Definition message_of (subject emailBody : string) : string :=
  join LF
    ["Content-Type: text/plain; charset=" ++ DQ ++ "UTF-8" ++ DQ;
     "MIME-Version: 1.0";
     "To: " ++ ALERT_EMAIL;
     "Subject: " ++ subject;
     EmptyString;
     emailBody].

(** Lines 78-82. *)
Definition encodedMessage (message : string) : string :=
  strip_trailing_eq
    (replace_all "/" "_" (replace_all "+" "-" (base64 message))).

(** [sendEmailAlert], lines 46-97. *)
Definition sendEmailAlert (paymentData : PaymentData) : M bool :=
  try_catch
    (subj <- lift (subject paymentData) ;;
     body <- lift (emailBody paymentData) ;;
     gmail_users_messages_send (encodedMessage (message_of subj body)) ;;;
     pid <- lift (ToString (payment_intent_id paymentData)) ;;
     log ("Email alert sent successfully for payment " ++ pid) "info" ;;;
     ret true)%js
    (fun error =>
       (log ("Failed to send email alert: " ++ emessage error) "error" ;;;
        ret false)%js).

(** [GET /health], lines 119-126. *)
Definition health : M Response :=
  fun st =>
    (inr (mkResponse 200
            (SendJson
               (JObj
                  [("status", JStr "healthy");
                   ("timestamp", JStr (clock w (clock_reads st)));
                   ("stripe_connected",
                    JBool (env_truthy (STRIPE_SECRET_KEY (env w))));
                   ("gmail_connected",
                    JBool (env_truthy (GMAIL_CLIENT_ID (env w))
                           && env_truthy (GMAIL_REFRESH_TOKEN (env w))))]))),
     mkState (recentLogs st) (console st) (S (clock_reads st))
       (outbox st) (lookups st)).

(** [GET /logs], lines 128-133. *)
Definition get_logs : M Response :=
  fun st =>
    (inr (mkResponse 200
            (SendJson
               (JObj
                  [("logs",
                    JArr (map entry_json (slice 0 50 (recentLogs st))));
                   ("total",
                    JNum (Z.of_nat (List.length (recentLogs st))))]))),
     st).

(** The object literal of lines 181-193, built from [event.data.object]. *)
Definition extract_paymentData (eventData : JsVal) : Res PaymentData :=
  (let? id :=
     or_else (get_prop eventData "id")
             (get_prop eventData "payment_intent") in
   let? amt :=
     or_else (get_prop eventData "amount")
             (get_prop eventData "amount_due") in
   let? cur := get_prop eventData "currency" in
   let? code :=
     or_else (get_prop eventData "failure_code")
             (opt_chain (get_prop eventData "last_payment_error") "code") in
   let? msg :=
     or_else (get_prop eventData "failure_message")
             (opt_chain (get_prop eventData "last_payment_error")
                "message") in
   let? method :=
     or_else
       (or_else (opt_chain (get_prop eventData "payment_method_types") "0")
                (opt_chain (get_prop eventData "payment_method") "type"))
       (opt_chain (get_prop eventData "source") "type") in
   let? crt := get_prop eventData "created" in
   rret (mkPaymentData id amt cur code msg method crt
           (JStr EmptyString) (JStr EmptyString)))%res.

(** Lines 195-204.  The handler of the inner [catch] sees [paymentData] as
    it was: the only steps of the [try] that can throw, the call and the
    first read of [customer], come before both assignments. *)
Definition lookup_customer (eventData : JsVal) (paymentData : PaymentData)
  : M PaymentData :=
  (ref <- lift (get_prop eventData "customer") ;;
   if truthy ref then
     try_catch
       (customer <- stripe_customers_retrieve ref ;;
        name <- lift (or_else (get_prop customer "name")
                              (rret (JStr EmptyString))) ;;
        email <- lift (or_else (get_prop customer "email")
                               (rret (JStr EmptyString))) ;;
        ret (set_customer_email (set_customer_name paymentData name) email))
       (fun customerError =>
          log ("Failed to retrieve customer info: "
                 ++ emessage customerError) "error" ;;;
          ret paymentData)
   else ret paymentData)%js.

(** Lines 206-215: the progress line, the alert, the report of its
    outcome. *)
Definition alert_and_report (event : JsVal) (paymentData : PaymentData)
  : M unit :=
  (pid <- lift (ToString (payment_intent_id paymentData)) ;;
   amt <- lift (ToNumber (amount paymentData)) ;;
   log ("Processing payment failure: " ++ pid ++ ", Amount: $"
          ++ toFixed 2 (num_div amt 100)) "info" ;;;
   emailSent <- sendEmailAlert paymentData ;;
   if emailSent then
     ty <- lift (get_prop event "type") ;;
     tys <- lift (ToString ty) ;;
     log ("Successfully processed payment failure event: " ++ tys) "info"
   else
     pid' <- lift (ToString (payment_intent_id paymentData)) ;;
     log ("Failed to send alert for payment failure: " ++ pid') "error")%js.

(** The body of the outer [try], lines 178-215. *)
Definition process_failure (event : JsVal) : M unit :=
  (data <- lift (get_prop event "data") ;;
   eventData <- lift (get_prop data "object") ;;
   extracted <- lift (extract_paymentData eventData) ;;
   paymentData <- lookup_customer eventData extracted ;;
   alert_and_report event paymentData)%js.

(** The handler of the outer [catch], lines 217-219. *)
Definition processing_failed (error : JsError) : M unit :=
  log ("Error processing payment failure event: " ++ emessage error)
    "error".

Definition is_failure_type (ty : JsVal) : bool :=
  strict_eq_str ty "payment_intent.payment_failed"
  || strict_eq_str ty "invoice.payment_failed"
  || strict_eq_str ty "charge.failed".

(** [POST /webhook], lines 160-223.  The early [return] of the first
    [catch] is the left injection. *)
Definition webhook (req : Request) : M Response :=
  (verified <-
     try_catch
       (event <- lift (constructEvent w (req_body req) (stripe_signature req)
                         (STRIPE_WEBHOOK_SECRET (env w))) ;;
        ty <- lift (get_prop event "type") ;;
        tys <- lift (ToString ty) ;;
        log ("Received Stripe webhook event: " ++ tys) "info" ;;;
        ret (inr event))
       (fun err =>
          log ("Webhook signature verification failed: " ++ emessage err)
            "error" ;;;
          ret (inl (mkResponse 400
                      (SendText ("Webhook Error: " ++ emessage err))))) ;;
   match verified with
   | inl response => ret response
   | inr event =>
       ty <- lift (get_prop event "type") ;;
       (if is_failure_type ty then
          try_catch (process_failure event) processing_failed
        else ret tt) ;;;
       ty' <- lift (get_prop event "type") ;;
       ret (mkResponse 200
              (SendJson (JObj [("received", JBool true); ("type", ty')])))
   end)%js.

(** [Date.now()]: [Date_now n] is the clock at its [n]-th reading, in
    milliseconds since the epoch. *)
Variable Date_now : nat -> Z.

Definition read_Date_now : M Z :=
  fun st =>
    (inr (Date_now (clock_reads st)),
     mkState (recentLogs st) (console st) (S (clock_reads st))
       (outbox st) (lookups st)).

(** The object literal of lines 138-148, given the two readings of the
    clock it makes. *)
Definition testPaymentData (now1 now2 : Z) : PaymentData :=
  mkPaymentData
    (JStr ("pi_test_" ++ int_to_string now1))
    (JNum 2000)
    (JStr "usd")
    (JStr "card_declined")
    (JStr "Your card was declined.")
    (JStr "card")
    (JNum (now2 / 1000))
    (JStr "Test Customer")
    (JStr "test@example.com").

(** [POST /test], lines 135-157. *)
Definition post_test : M Response :=
  (log "Manual test triggered" "info" ;;;
   now1 <- read_Date_now ;;
   now2 <- read_Date_now ;;
   success <- sendEmailAlert (testPaymentData now1 now2) ;;
   ret (mkResponse 200
          (SendJson
             (JObj
                [("success", JBool success);
                 ("message",
                  JStr (if success then "Test alert sent successfully"
                        else "Failed to send test alert"));
                 ("test_data",
                  paymentData_json (testPaymentData now1 now2))]))))%js.

(** The error-handling middleware, lines 226-229. *)
Definition error_middleware (error : JsError) : M Response :=
  (log ("Unhandled error: " ++ emessage error) "error" ;;;
   ret (mkResponse 500
          (SendJson (JObj [("error", JStr "Internal server error")]))))%js.

(** [process.env.PORT]. *)
Variable PORT_var : option string.

(** Line 232. *)
Definition PORT : JsVal :=
  match PORT_var with
  | Some s => if String.eqb s EmptyString then JNum 3000 else JStr s
  | None => JNum 3000
  end.

(** The callback of [app.listen], lines 233-237. *)
Definition listening : M unit :=
  (port <- lift (ToString PORT) ;;
   log ("Stripe Payment Failure Monitor started on port " ++ port) "info" ;;;
   log "Webhook endpoint: /webhook" "info" ;;;
   log "Ready to monitor payment failures and send email alerts" "info")%js.

End Service.


(** ** Vocabulary of the statements *)

(** [needle] occurs in [s]. *)
Definition Contains (needle s : string) : Prop :=
  exists pre post, s = pre ++ needle ++ post.

(** A series of [log] calls, each given as (message, level). *)
Fixpoint record_all (w : World) (calls : list (string * string)) (st : State)
  : State :=
  match calls with
  | [] => st
  | (msg, lvl) :: rest => record_all w rest (snd (log w msg lvl st))
  end.

(** The entries those calls create when the clock has been read [n] times
    before the first of them. *)
Fixpoint entries_from (w : World) (n : nat) (calls : list (string * string))
  : list LogEntry :=
  match calls with
  | [] => []
  | (msg, lvl) :: rest => mkLogEntry (clock w n) lvl msg :: entries_from w (S n) rest
  end.

(** A field of a JSON response body. *)
Definition response_field (k : string) (r : Res Response) : option JsVal :=
  match r with
  | inr (mkResponse _ (SendJson (JObj ps))) => lookup k ps
  | _ => None
  end.

(** An environment variable is set, whatever its value. *)
Definition is_set (v : option string) : bool :=
  match v with
  | Some _ => true
  | None => false
  end.

(** An environment variable is set to a non-empty value. *)
Definition non_empty (v : option string) : Prop :=
  exists s, v = Some s /\ s <> EmptyString.

Definition with_client_secret (e : Env) (v : option string) : Env :=
  mkEnv (STRIPE_SECRET_KEY e) (STRIPE_WEBHOOK_SECRET e) (GMAIL_CLIENT_ID e) v
    (GMAIL_REFRESH_TOKEN e) (ALERT_EMAIL_var e).

Definition with_env (w : World) (e : Env) : World :=
  mkWorld e (clock w) (toLocaleString w) (StringToNumber w)
    (constructEvent w) (customers_retrieve w) (gmail_send w).

(** The property [k] of [v], [undefined] where [v] has none. *)
Definition prop_or_undefined (v : JsVal) (k : string) : JsVal :=
  match v with
  | JObj ps => match lookup k ps with Some x => x | None => JUndefined end
  | JArr xs =>
      if String.eqb k "length" then JNum (Z.of_nat (List.length xs))
      else match index_of_key k with
           | Some i => nth i xs JUndefined
           | None => JUndefined
           end
  | JStr s =>
      if String.eqb k "length" then JNum (Z.of_nat (String.length s))
      else match index_of_key k with
           | Some i =>
               match String.get i s with
               | Some c => JStr (String c EmptyString)
               | None => JUndefined
               end
           | None => JUndefined
           end
  | _ => JUndefined
  end.

(** First match wins: the first candidate that is truthy, the last one when
    none is. *)
Fixpoint first_match (candidates : list JsVal) : JsVal :=
  match candidates with
  | [] => JUndefined
  | [x] => x
  | x :: rest => if truthy x then x else first_match rest
  end.


Definition currency_label (c : JsVal) : string :=
  match c with
  | JStr s => if String.eqb s EmptyString then "USD" else toUpperCase s
  | _ => "USD"
  end.


Definition scalar (v : JsVal) : bool :=
  match v with
  | JArr _ | JObj _ => false
  | _ => true
  end.

Definition optional_string (v : JsVal) : bool :=
  match v with
  | JUndefined | JNull | JStr _ => true
  | _ => false
  end.

(** A record as the data model types it: every field a JSON scalar, the
    currency and the customer fields strings where present. *)
Definition well_formed (pd : PaymentData) : bool :=
  scalar (payment_intent_id pd) && scalar (amount pd)
  && optional_string (currency pd)
  && scalar (failure_code pd) && scalar (failure_message pd)
  && scalar (payment_method_type pd) && scalar (created pd)
  && optional_string (customer_name pd) && optional_string (customer_email pd).


(** The message handed to the Gmail client for a record, when rendering it
    does not throw. *)
Definition raw_message (w : World) (pd : PaymentData) : Res string :=
  (let? subj := subject pd in
   let? body := emailBody w pd in
   rret (encodedMessage (message_of w subj body)))%res.

Definition add_outbox (st : State) (raw : string) : State :=
  mkState (recentLogs st) (console st) (clock_reads st)
    (outbox st ++ [raw]) (lookups st).

Definition add_lookup (st : State) (id : JsVal) : State :=
  mkState (recentLogs st) (console st) (clock_reads st)
    (outbox st) (lookups st ++ [id]).

Definition ok_response (ty : string) : Response :=
  mkResponse 200 (SendJson (JObj [("received", JBool true); ("type", JStr ty)])).

Definition failure_kinds : list string :=
  ["payment_intent.payment_failed"; "invoice.payment_failed"; "charge.failed"].

(** The line [log] prints for an entry. *)
Definition line_of (e : LogEntry) : string :=
  "[" ++ timestamp e ++ "] " ++ toUpperCase (level e) ++ ": " ++ message e.

(** What a computation may do to the state: the log stays within its
    capacity, the console, the outbox and the lookups only grow, by at most
    [mails] messages and [asks] lookups. *)
Definition step_within (mails asks : nat) (st st' : State) : Prop :=
  ((List.length (recentLogs st) <= 100)%nat ->
   (List.length (recentLogs st') <= 100)%nat)
  /\ (exists printed, console st' = (console st ++ printed)%list)
  /\ (exists sent,
         outbox st' = (outbox st ++ sent)%list
         /\ (List.length sent <= mails)%nat)
  /\ (exists asked,
         lookups st' = (lookups st ++ asked)%list
         /\ (List.length asked <= asks)%nat).

Definition within {A} (mails asks : nat) (m : M A) : Prop :=
  forall st, step_within mails asks st (snd (m st)).

(** The requests the service answers. *)
Inductive Call : Type :=
| CallRoot
| CallHealth
| CallLogs
| CallTest
| CallWebhook (req : Request)
| CallFailing (error : JsError).

(** The handler a request reaches; [CallFailing] is a request on which a
    middleware raises [error], which Express passes to the error handler. *)
Definition handle (w : World) (Date_now : nat -> Z) (c : Call) : M Response :=
  match c with
  | CallRoot => get_root
  | CallHealth => health w
  | CallLogs => get_logs
  | CallTest => post_test w Date_now
  | CallWebhook req => webhook w req
  | CallFailing error => error_middleware w error
  end.

(** The state after a series of requests, each run to its end. *)
Fixpoint serve (w : World) (Date_now : nat -> Z) (calls : list Call)
         (st : State) : State :=
  match calls with
  | [] => st
  | c :: rest => serve w Date_now rest (snd (handle w Date_now c st))
  end.

(** The value of a character of the URL-safe base64 alphabet (RFC 4648,
    section 5). *)
Definition b64url_value (c : ascii) : option N :=
  let n := N_of_ascii c in
  if ((65 <=? n) && (n <=? 90))%N then Some (n - 65)%N
  else if ((97 <=? n) && (n <=? 122))%N then Some (n - 71)%N
  else if ((48 <=? n) && (n <=? 57))%N then Some (n + 4)%N
  else if (n =? 45)%N then Some 62%N
  else if (n =? 95)%N then Some 63%N
  else None.

(** Decoding of unpadded URL-safe base64, what the receiver of a [raw]
    message does. *)
Fixpoint base64url_decode (s : string) : option string :=
  match s with
  | EmptyString => Some EmptyString
  | String _ EmptyString => None
  | String c1 (String c2 EmptyString) =>
      match b64url_value c1, b64url_value c2 with
      | Some v1, Some v2 =>
          Some (String (ascii_of_N (v1 * 4 + v2 / 16)) EmptyString)
      | _, _ => None
      end
  | String c1 (String c2 (String c3 EmptyString)) =>
      match b64url_value c1, b64url_value c2, b64url_value c3 with
      | Some v1, Some v2, Some v3 =>
          Some (String (ascii_of_N (v1 * 4 + v2 / 16))
                  (String (ascii_of_N ((v2 mod 16) * 16 + v3 / 4))
                     EmptyString))
      | _, _, _ => None
      end
  | String c1 (String c2 (String c3 (String c4 rest))) =>
      match b64url_value c1, b64url_value c2, b64url_value c3,
            b64url_value c4, base64url_decode rest with
      | Some v1, Some v2, Some v3, Some v4, Some tail =>
          Some (String (ascii_of_N (v1 * 4 + v2 / 16))
                  (String (ascii_of_N ((v2 mod 16) * 16 + v3 / 4))
                     (String (ascii_of_N ((v3 mod 4) * 64 + v4)) tail)))
      | _, _, _, _, _ => None
      end
  end%N.

Fixpoint string_forall (p : ascii -> bool) (s : string) : bool :=
  match s with
  | EmptyString => true
  | String c s' => p c && string_forall p s'
  end.

Definition url_safe (c : ascii) : bool :=
  match b64url_value c with
  | Some _ => true
  | None => false
  end.

(** What the outer [try] of the webhook handler computes before it looks the
    customer up. *)
Definition extraction (event : JsVal) : Res PaymentData :=
  (let? data := get_prop event "data" in
   let? eventData := get_prop data "object" in
   extract_paymentData eventData)%res.






(** A character of standard base64 after the two replacements of lines
    80-81. *)
Definition url_of (c : ascii) : ascii :=
  let c1 := if Ascii.eqb c "+" then "-"%char else c in
  if Ascii.eqb c1 "/" then "_"%char else c1.

(** The check behind the alphabet lemma: sextet [n] is written as a
    character that is not the padding and reads back as [n]. *)
Definition sextet_ok (n : N) : bool :=
  match b64url_value (url_of (b64_char n)) with
  | Some m => (m =? n)%N && negb (Ascii.eqb (url_of (b64_char n)) "=")
  | None => false
  end.

(** How many messages and lookups a request may cause. *)
Definition mails_of (c : Call) : nat :=
  match c with
  | CallTest | CallWebhook _ => 1
  | _ => 0
  end.

Definition asks_of (c : Call) : nat :=
  match c with
  | CallWebhook _ => 1
  | _ => 0
  end.

Definition sample_Date_now (n : nat) : Z := 1735689600000 + Z.of_nat n.

(** ** Sample inputs *)

Definition sample_env : Env :=
  mkEnv (Some "sk_test_51") (Some "whsec_7") (Some "client-id") None
    (Some "1//refresh") None.

(** A configuration in which the Gmail client id is set, to the empty
    string. *)
Definition empty_client_id_env : Env :=
  mkEnv (Some "sk_test_51") (Some "whsec_7") (Some EmptyString)
    (Some "client-secret") (Some "1//refresh") None.

Definition sample_clock (n : nat) : string :=
  "2025-01-01T00:00:00." ++ decimal (Z.of_nat n) ++ "Z".


Definition sample_object_with_customer : JsVal :=
  JObj [("id", JStr "pi_3");
        ("amount", JNum 1999);
        ("currency", JStr "usd");
        ("created", JNum 1700000000);
        ("customer", JStr "cus_9")].

Definition sample_event : JsVal :=
  JObj [("type", JStr "payment_intent.payment_failed");
        ("data", JObj [("object", sample_object_with_customer)])].


Definition sample_request : Request := mkRequest "{}" (Some "t=1,v1=ab").

(** The signature verifies, the customer lookup fails, the mail is
    accepted. *)
Definition sample_world : World :=
  mkWorld sample_env sample_clock (fun _ => "1/1/2025, 12:00:00 AM")
    (fun _ => NaN)
    (fun _ _ _ => inr sample_event)
    (fun _ => rthrow "No such customer: cus_9")
    (fun _ => inr tt).

(** The signature does not verify. *)
Definition rejecting_world : World :=
  mkWorld sample_env sample_clock (fun _ => "1/1/2025, 12:00:00 AM")
    (fun _ => NaN)
    (fun _ _ _ => rthrow "No signatures found matching the expected signature")
    (fun _ => rthrow "No such customer: cus_9")
    (fun _ => inr tt).

Definition sample_calls : list (string * string) :=
  repeat ("ping", "info") 101.

(** Further worlds: the verified event is of another type, is [null], has
    no embedded object, has no customer reference; the customer is found. *)
Definition other_event : JsVal := JObj [("type", JStr "customer.created")].

Definition bare_event : JsVal := JObj [("type", JStr "charge.failed")].


Definition world_with_event (event : JsVal) : World :=
  mkWorld sample_env sample_clock (fun _ => "1/1/2025, 12:00:00 AM")
    (fun _ => NaN)
    (fun _ _ _ => inr event)
    (fun _ =>
       inr (JObj [("name", JStr "Ada"); ("email", JStr "ada@example.com")]))
    (fun _ => inr tt).



Definition numeric_currency_record : PaymentData :=
  mkPaymentData (JStr "pi_3") (JNum 1999) (JNum 840) JUndefined JUndefined
    JUndefined (JNum 1700000000) (JStr EmptyString) (JStr EmptyString).

(** * Properties *)

(** ** The activity log *)

Section ActivityLog.

Variable w : World.

Lemma log_returns (msg lvl : string) (st : State) :
  fst (log w msg lvl st) = inr tt.
Proof. reflexivity. Qed.

Lemma log_recentLogs (msg lvl : string) (st : State) :
  recentLogs (snd (log w msg lvl st)) =
  let unshifted := mkLogEntry (clock w (clock_reads st)) lvl msg :: recentLogs st in
  if (100 <? List.length unshifted)%nat then removelast unshifted else unshifted.
Proof. reflexivity. Qed.

Lemma log_clock_reads (msg lvl : string) (st : State) :
  clock_reads (snd (log w msg lvl st)) = S (clock_reads st).
Proof. reflexivity. Qed.

Lemma log_outbox (msg lvl : string) (st : State) :
  outbox (snd (log w msg lvl st)) = outbox st.
Proof. reflexivity. Qed.

Lemma removelast_length {A} (l : list A) :
  List.length (removelast l) = Nat.pred (List.length l).
Proof.
  induction l as [|x l IH]; [reflexivity|].
  destruct l as [|y l]; [reflexivity|].
  change (removelast (x :: y :: l)) with (x :: removelast (y :: l)).
  cbn [List.length] in *. rewrite IH. reflexivity.
Qed.

Lemma log_keeps_bound (msg lvl : string) (st : State) :
  (List.length (recentLogs st) <= 100)%nat ->
  (List.length (recentLogs (snd (log w msg lvl st))) <= 100)%nat.
Proof.
  intros Hlen. rewrite log_recentLogs. cbv zeta.
  destruct (Nat.ltb_spec 100
              (List.length (mkLogEntry (clock w (clock_reads st)) lvl msg
                              :: recentLogs st))) as [Hgt|Hle].
  - rewrite removelast_length. cbn [List.length] in *. lia.
  - exact Hle.
Qed.

Lemma log_head (msg lvl : string) (st : State) :
  hd_error (recentLogs (snd (log w msg lvl st))) =
  Some (mkLogEntry (clock w (clock_reads st)) lvl msg).
Proof.
  rewrite log_recentLogs. cbv zeta.
  destruct (Nat.ltb_spec 100
              (List.length (mkLogEntry (clock w (clock_reads st)) lvl msg
                              :: recentLogs st))) as [Hgt|Hle];
    [|reflexivity].
  destruct (recentLogs st) as [|e l]; [cbn in Hgt; lia|reflexivity].
Qed.

Lemma record_all_keeps_bound (calls : list (string * string)) :
  forall st,
    (List.length (recentLogs st) <= 100)%nat ->
    (List.length (recentLogs (record_all w calls st)) <= 100)%nat.
Proof.
  induction calls as [|[msg lvl] rest IH]; intros st Hlen; [exact Hlen|].
  cbn [record_all]. apply IH, log_keeps_bound, Hlen.
Qed.

Lemma record_all_app (xs ys : list (string * string)) :
  forall st,
    record_all w (xs ++ ys)%list st = record_all w ys (record_all w xs st).
Proof.
  induction xs as [|[msg lvl] xs IH]; intros st; [reflexivity|].
  cbn [record_all app]. apply IH.
Qed.

Lemma record_all_clock_reads (calls : list (string * string)) :
  forall st,
    clock_reads (record_all w calls st) = (clock_reads st + List.length calls)%nat.
Proof.
  induction calls as [|[msg lvl] rest IH]; intros st; cbn [record_all List.length].
  - lia.
  - rewrite IH, log_clock_reads. lia.
Qed.

Lemma entries_from_length (calls : list (string * string)) :
  forall n, List.length (entries_from w n calls) = List.length calls.
Proof.
  induction calls as [|[msg lvl] rest IH]; intros n; cbn; [reflexivity|].
  now rewrite IH.
Qed.

Lemma entries_from_app (xs ys : list (string * string)) :
  forall n,
    entries_from w n (xs ++ ys)%list =
    (entries_from w n xs ++ entries_from w (n + List.length xs) ys)%list.
Proof.
  induction xs as [|[msg lvl] xs IH]; intros n; cbn [entries_from app List.length].
  - now rewrite Nat.add_0_r.
  - rewrite IH. do 3 f_equal. lia.
Qed.

(** Below capacity nothing is evicted: the log is the new entries, newest
    first, in front of what was there. *)
Lemma record_all_below_capacity (calls : list (string * string)) :
  forall st,
    (List.length (recentLogs st) + List.length calls <= 100)%nat ->
    recentLogs (record_all w calls st) =
    (rev (entries_from w (clock_reads st) calls) ++ recentLogs st)%list.
Proof.
  induction calls as [|[msg lvl] rest IH]; intros st Hlen; [reflexivity|].
  cbn [record_all entries_from rev List.length] in *.
  rewrite IH.
  - rewrite log_clock_reads, log_recentLogs. cbv zeta.
    destruct (Nat.ltb_spec 100
                (List.length (mkLogEntry (clock w (clock_reads st)) lvl msg
                                :: recentLogs st))) as [Hgt|Hle].
    + cbn [List.length] in Hgt. lia.
    + now rewrite <- app_assoc.
  - pose proof (log_keeps_bound msg lvl st) as Hb.
    rewrite log_recentLogs in *. cbv zeta in *.
    destruct (Nat.ltb_spec 100
                (List.length (mkLogEntry (clock w (clock_reads st)) lvl msg
                                :: recentLogs st))) as [Hgt|Hle];
      cbn [List.length] in *; lia.
Qed.

Lemma removelast_rev_tl {A} (l : list A) :
  removelast (rev l) = rev (tl l).
Proof.
  destruct l as [|x l]; [reflexivity|].
  cbn [rev tl]. now rewrite removelast_last.
Qed.

Lemma last_call_split {A} (l : list A) (n : nat) :
  List.length l = S n ->
  exists init last, l = (init ++ [last])%list /\ List.length init = n.
Proof.
  intros Hlen.
  destruct (exists_last (l := l)) as [init [last ->]].
  - intros ->. discriminate.
  - exists init, last. split; [reflexivity|].
    rewrite length_app in Hlen. cbn in Hlen. lia.
Qed.

(** C3.  The activity log never exceeds 100 entries: a call of [log]
    keeps the bound, so does any series of calls from the empty log; and
    after 101 calls from the empty log the sequence holds exactly the
    entries of calls 2 to 101, newest first: it has 100 entries, the 101st
    is at index 0, and the first-recorded entry is absent (it occurs
    nowhere unless an identical entry was recorded after it). *)
Theorem log_capacity :
  (forall msg lvl st,
      (List.length (recentLogs st) <= 100)%nat ->
      (List.length (recentLogs (snd (log w msg lvl st))) <= 100)%nat)
  /\ (forall calls,
      (List.length (recentLogs (record_all w calls initial_state)) <= 100)%nat)
  /\ (forall calls,
      List.length calls = 101%nat ->
      let entries := entries_from w 0 calls in
      let logs := recentLogs (record_all w calls initial_state) in
      logs = rev (tl entries)
      /\ List.length logs = 100%nat
      /\ nth_error logs 0 = nth_error entries 100
      /\ (forall first,
             nth_error entries 0 = Some first ->
             ~ In first (tl entries) -> ~ In first logs)).
Proof.
  split; [exact log_keeps_bound|].
  split.
  { intros calls. apply record_all_keeps_bound. cbn. lia. }
  intros calls Hlen entries logs.
  assert (Hlogs : logs = rev (tl entries)).
  { subst logs entries.
    destruct (last_call_split calls 100 Hlen) as (init & [msg lvl] & -> & Hinit).
    rewrite record_all_app. cbn [record_all].
    rewrite log_recentLogs. cbv zeta.
    rewrite record_all_clock_reads.
    rewrite (record_all_below_capacity init initial_state)
      by (cbn; lia).
    cbn [recentLogs clock_reads initial_state]. rewrite app_nil_r.
    cbn [List.length]. rewrite length_rev, entries_from_length, Hinit.
    change (100 <? 101)%nat with true. cbv iota.
    rewrite entries_from_app. cbn [entries_from].
    match goal with
    | |- context [removelast (?e :: ?l)] =>
        change (removelast (e :: l)) with (removelast ([e] ++ l)%list)
    end.
    rewrite removelast_app.
    2:{ intros Hnil. apply (f_equal (@List.length _)) in Hnil.
        rewrite length_rev, entries_from_length, Hinit in Hnil.
        discriminate. }
    rewrite removelast_rev_tl.
    destruct (entries_from w 0 init) as [|e0 es] eqn:Hes.
    { apply (f_equal (@List.length _)) in Hes.
      rewrite entries_from_length, Hinit in Hes. discriminate. }
    cbn [tl app]. rewrite rev_app_distr. cbn [rev app].
    now rewrite Hinit. }
  assert (Hentries : List.length entries = 101%nat).
  { subst entries. now rewrite entries_from_length. }
  split; [exact Hlogs|].
  split.
  { rewrite Hlogs, length_rev.
    destruct entries; [discriminate|]. cbn in *. lia. }
  split.
  { rewrite Hlogs.
    destruct entries as [|e0 es]; [discriminate|]. cbn [tl].
    cbn [List.length] in Hentries.
    destruct (exists_last (l := es)) as [init [lst Hes]].
    { intros ->. discriminate. }
    assert (List.length init = 99%nat).
    { rewrite Hes, length_app in Hentries. cbn in Hentries. lia. }
    rewrite Hes, rev_app_distr.
    change (nth_error (e0 :: init ++ [lst])%list 100)
      with (nth_error (init ++ [lst])%list 99).
    rewrite (nth_error_app2 init) by lia.
    replace (99 - List.length init)%nat with 0%nat by lia. reflexivity. }
  intros first _ Hnot Hin. apply Hnot.
  rewrite Hlogs in Hin. now apply in_rev.
Qed.

End ActivityLog.

(** ** The read-only endpoints *)

Section Endpoints.

Variable w : World.

Lemma slice_from_start {A} (n : Z) (l : list A) :
  0 <= n -> slice 0 n l = firstn (Z.to_nat n) l.
Proof.
  intros Hn. unfold slice. cbv zeta.
  change (0 <? 0) with false. cbv iota.
  destruct (Z.ltb_spec n 0) as [Hneg|_]; [lia|].
  rewrite (Z.min_l 0) by lia. change (Z.to_nat 0) with 0%nat. cbn [skipn].
  rewrite Z.sub_0_r.
  destruct (Z.le_ge_cases n (Z.of_nat (List.length l))) as [Hle|Hge].
  - now rewrite Z.min_l.
  - rewrite Z.min_r by lia. rewrite Nat2Z.id.
    rewrite firstn_all. symmetry. apply firstn_all2. lia.
Qed.

(** C8.  For every state of the activity log, [GET /logs] answers 200 with
    the first 50 elements of the newest-first sequence (all of them when
    there are fewer) and a total equal to the full length of the sequence;
    the log is left as it was. *)
Theorem logs_endpoint (st : State) :
  get_logs st =
    (inr (mkResponse 200
            (SendJson
               (JObj
                  [("logs", JArr (map entry_json (firstn 50 (recentLogs st))));
                   ("total", JNum (Z.of_nat (List.length (recentLogs st))))]))),
     st)
  /\ List.length (firstn 50 (recentLogs st))
     = Nat.min 50 (List.length (recentLogs st))
  /\ (forall i, (i < 50)%nat ->
                nth_error (firstn 50 (recentLogs st)) i
                = nth_error (recentLogs st) i).
Proof.
  split; [|split].
  - unfold get_logs. rewrite slice_from_start by lia. reflexivity.
  - apply length_firstn.
  - intros i Hi. rewrite nth_error_firstn.
    destruct (Nat.ltb_spec i 50); [reflexivity|lia].
Qed.

Lemma env_truthy_non_empty (v : option string) :
  env_truthy v = true <-> non_empty v.
Proof.
  unfold env_truthy, non_empty. destruct v as [s|].
  - destruct (String.eqb_spec s EmptyString) as [->|Hne]; cbn.
    + split; [discriminate|]. intros (s' & [= <-] & Hs'). now elim Hs'.
    + split; [|reflexivity]. intros _. now exists s.
  - split; [discriminate|]. intros (s' & [=] & _).
Qed.

(** C10, as amended.  [GET /health] computes [gmail_connected] from
    [GMAIL_CLIENT_ID] and [GMAIL_REFRESH_TOKEN] alone: it is [true] exactly
    when both are set to a non-empty value, whatever [GMAIL_CLIENT_SECRET]
    is, set or unset; [stripe_connected] is [true] exactly when
    [STRIPE_SECRET_KEY] is set to a non-empty value.  Both flags are
    booleans. *)
Theorem health_flags (st : State) :
  (response_field "gmail_connected" (fst (health w st)) = Some (JBool true)
   <-> non_empty (GMAIL_CLIENT_ID (env w))
       /\ non_empty (GMAIL_REFRESH_TOKEN (env w)))
  /\ (response_field "stripe_connected" (fst (health w st)) = Some (JBool true)
      <-> non_empty (STRIPE_SECRET_KEY (env w)))
  /\ (exists g s,
         response_field "gmail_connected" (fst (health w st)) = Some (JBool g)
         /\ response_field "stripe_connected" (fst (health w st))
            = Some (JBool s))
  /\ (forall secret,
         fst (health (with_env w (with_client_secret (env w) secret)) st)
         = fst (health w st)).
Proof.
  split; [|split; [|split]].
  - cbn. rewrite <- !env_truthy_non_empty.
    destruct (env_truthy (GMAIL_CLIENT_ID (env w))),
             (env_truthy (GMAIL_REFRESH_TOKEN (env w))); cbn;
      intuition congruence.
  - cbn. rewrite <- env_truthy_non_empty.
    destruct (env_truthy (STRIPE_SECRET_KEY (env w))); intuition congruence.
  - eexists; eexists; split; reflexivity.
  - intros secret. reflexivity.
Qed.

End Endpoints.

(** ** The event normalizer *)

Section Normalizer.

Lemma get_prop_defined (v : JsVal) (k : string) :
  nullish v = false -> get_prop v k = inr (prop_or_undefined v k).
Proof.
  destruct v; cbn; try discriminate; intros _; try reflexivity.
  - destruct (String.eqb k "length"); [reflexivity|].
    destruct (index_of_key k) as [i|]; [|reflexivity].
    now destruct (String.get i s).
  - destruct (String.eqb k "length"); [reflexivity|].
    now destruct (index_of_key k).
  - now destruct (lookup k ps).
Qed.

Lemma get_prop_throws (v : JsVal) (k : string) :
  nullish v = true -> exists e, get_prop v k = inl e.
Proof.
  destruct v; cbn; try discriminate; intros _; eexists; reflexivity.
Qed.

Lemma get_prop_ok_not_nullish (v : JsVal) (k : string) (x : JsVal) :
  get_prop v k = inr x -> nullish v = false.
Proof. destruct v; cbn; try discriminate; reflexivity. Qed.

Lemma prop_or_undefined_nullish (v : JsVal) (k : string) :
  nullish v = true -> prop_or_undefined v k = JUndefined.
Proof. destruct v; cbn; try discriminate; reflexivity. Qed.

Lemma opt_chain_defined (v : JsVal) (k1 k2 : string) :
  nullish v = false ->
  opt_chain (get_prop v k1) k2
  = inr (prop_or_undefined (prop_or_undefined v k1) k2).
Proof.
  intros Hv. unfold opt_chain. rewrite (get_prop_defined v k1 Hv). cbn.
  destruct (nullish (prop_or_undefined v k1)) eqn:Hn.
  - now rewrite prop_or_undefined_nullish.
  - now apply get_prop_defined.
Qed.

Lemma or_else_defined (a b : JsVal) :
  or_else (inr a) (inr b) = inr (first_match [a; b]).
Proof. cbn. now destruct (truthy a). Qed.

Lemma first_match_three (a b c : JsVal) :
  first_match [first_match [a; b]; c] = first_match [a; b; c].
Proof. cbn. destruct (truthy a) eqn:Ha; [now rewrite Ha|reflexivity]. Qed.

Lemma first_match_undefined (l : list JsVal) :
  Forall (fun v => v = JUndefined) l -> first_match l = JUndefined.
Proof.
  induction 1 as [|x l Hx Hl IH]; [reflexivity|]. subst x.
  destruct l; [reflexivity|exact IH].
Qed.

(** The normalizer in closed form. *)
Lemma extract_paymentData_defined (eventData : JsVal) :
  nullish eventData = false ->
  let field := prop_or_undefined eventData in
  let nested k1 k2 := prop_or_undefined (field k1) k2 in
  extract_paymentData eventData =
  inr (mkPaymentData
         (first_match [field "id"; field "payment_intent"])
         (first_match [field "amount"; field "amount_due"])
         (field "currency")
         (first_match [field "failure_code";
                       nested "last_payment_error" "code"])
         (first_match [field "failure_message";
                       nested "last_payment_error" "message"])
         (first_match [nested "payment_method_types" "0";
                       nested "payment_method" "type";
                       nested "source" "type"])
         (field "created")
         (JStr EmptyString) (JStr EmptyString)).
Proof.
  intros Hv field nested. unfold extract_paymentData.
  rewrite !(opt_chain_defined eventData) by exact Hv.
  rewrite !(get_prop_defined eventData) by exact Hv.
  rewrite !or_else_defined. cbn [rbind rret].
  now rewrite first_match_three.
Qed.


Lemma lookup_customer_returns (w : World) (eventData : JsVal)
      (pd : PaymentData) (st : State) :
  nullish eventData = false ->
  exists pd' st', lookup_customer w eventData pd st = (inr pd', st').
Proof.
  intros Hv. unfold lookup_customer, bind at 1, lift at 1.
  rewrite (get_prop_defined eventData "customer" Hv). cbv beta iota.
  destruct (truthy (prop_or_undefined eventData "customer"));
    [|eexists; eexists; reflexivity].
  unfold try_catch.
  match goal with
  | |- context [match ?body st with _ => _ end] =>
      destruct (body st) as [[e|pd'] st']
  end; eexists; eexists; reflexivity.
Qed.

Lemma lookup_customer_absent (w : World) (eventData : JsVal)
      (pd : PaymentData) (st : State) :
  nullish eventData = false ->
  truthy (prop_or_undefined eventData "customer") = false ->
  lookup_customer w eventData pd st = (inr pd, st).
Proof.
  intros Hv Hc. unfold lookup_customer, bind at 1, lift at 1.
  rewrite (get_prop_defined eventData "customer" Hv). cbv beta iota.
  now rewrite Hc.
Qed.

(** C5.  For the payload of any of the recognised events (its embedded
    object is there), the normalizer never raises: it returns a record
    whose customer name and email are the empty string and in which every
    optional field missing from the payload is [undefined]; without a
    customer reference no lookup is made and the record is final; with
    one, the lookup returns whatever the gateway answers. *)
Theorem normalizer_never_raises (eventData : JsVal) :
  nullish eventData = false ->
  let field := prop_or_undefined eventData in
  exists pd,
    extract_paymentData eventData = inr pd
    /\ customer_name pd = JStr EmptyString
    /\ customer_email pd = JStr EmptyString
    /\ (field "amount" = JUndefined -> field "amount_due" = JUndefined ->
        amount pd = JUndefined)
    /\ (field "currency" = JUndefined -> currency pd = JUndefined)
    /\ (field "failure_code" = JUndefined ->
        field "last_payment_error" = JUndefined ->
        failure_code pd = JUndefined)
    /\ (field "failure_message" = JUndefined ->
        field "last_payment_error" = JUndefined ->
        failure_message pd = JUndefined)
    /\ (field "payment_method_types" = JUndefined ->
        field "payment_method" = JUndefined ->
        field "source" = JUndefined ->
        payment_method_type pd = JUndefined)
    /\ (forall w st,
           field "customer" = JUndefined ->
           lookup_customer w eventData pd st = (inr pd, st))
    /\ (forall w st,
           exists pd' st', lookup_customer w eventData pd st = (inr pd', st')).
Proof.
  intros Hv field.
  rewrite (extract_paymentData_defined eventData Hv).
  eexists. split; [reflexivity|]. cbn [customer_name customer_email amount
    currency failure_code failure_message payment_method_type].
  fold field.
  split; [reflexivity|]. split; [reflexivity|].
  split.
  { intros -> ->. reflexivity. }
  split; [intros H; exact H|].
  split.
  { intros -> ->. reflexivity. }
  split.
  { intros -> ->. reflexivity. }
  split.
  { intros -> -> ->. reflexivity. }
  split.
  { intros w st Hc. apply lookup_customer_absent; [exact Hv|].
    unfold field in Hc. now rewrite Hc. }
  intros w st. now apply lookup_customer_returns.
Qed.

End Normalizer.

(** ** Strings and numbers *)

Section Formatting.


Lemma append_nil_r (a : string) : a ++ EmptyString = a.
Proof.
  induction a as [|x a IH]; [reflexivity|]. cbn [append]. now rewrite IH.
Qed.





















End Formatting.

(** ** The alert sender *)

(** Splits a successful sequence of partial steps into its steps. *)
Ltac split_steps H :=
  repeat match type of H with
         | rbind ?r _ = inr _ =>
             let E := fresh "Hstep" in
             destruct r eqn:E; cbn [rbind] in H; [discriminate H|]
         end.

Section AlertSender.

Variable w : World.

Lemma emailBody_ok_parts (pd : PaymentData) (body : string) :
  emailBody w pd = inr body ->
  exists pid amt,
    ToString (payment_intent_id pd) = inr pid
    /\ ToNumber w (amount pd) = inr amt.
Proof.
  intros H. unfold emailBody in H. split_steps H.
  eexists; eexists; split; reflexivity.
Qed.

Lemma raw_message_ok_parts (pd : PaymentData) (raw : string) :
  raw_message w pd = inr raw ->
  exists subj body pid amt,
    subject pd = inr subj
    /\ emailBody w pd = inr body
    /\ raw = encodedMessage (message_of w subj body)
    /\ ToString (payment_intent_id pd) = inr pid
    /\ ToNumber w (amount pd) = inr amt.
Proof.
  intros H. unfold raw_message in H. split_steps H.
  assert (Hraw : raw = encodedMessage (message_of w s s0))
    by (unfold rret in H; congruence).
  clear H. subst raw.
  destruct (emailBody_ok_parts pd _ Hstep0) as (pid & amt & Hpid & Hamt).
  now exists s, s0, pid, amt.
Qed.

Lemma sendEmailAlert_rendered (pd : PaymentData) (st : State)
      (raw pid : string) :
  raw_message w pd = inr raw ->
  ToString (payment_intent_id pd) = inr pid ->
  sendEmailAlert w pd st =
  match gmail_send w raw with
  | inr _ =>
      (inr true,
       snd (log w ("Email alert sent successfully for payment " ++ pid)
              "info" (add_outbox st raw)))
  | inl e =>
      (inr false,
       snd (log w ("Failed to send email alert: " ++ emessage e) "error"
              (add_outbox st raw)))
  end.
Proof.
  intros Hraw Hpid.
  destruct (raw_message_ok_parts pd raw Hraw)
    as (subj & body & pid' & amt & Hs & Hb & -> & _ & _).
  unfold sendEmailAlert, try_catch, bind at 1, lift at 1. rewrite Hs.
  unfold bind at 1, lift at 1. rewrite Hb.
  unfold bind at 1, gmail_users_messages_send at 1.
  destruct (gmail_send w (encodedMessage (message_of w subj body)))
    as [e|[]].
  - reflexivity.
  - unfold bind at 1, lift at 1. rewrite Hpid. reflexivity.
Qed.

Lemma sendEmailAlert_unrendered (pd : PaymentData) (st : State)
      (e : JsError) :
  raw_message w pd = inl e ->
  sendEmailAlert w pd st =
  (inr false,
   snd (log w ("Failed to send email alert: " ++ emessage e) "error" st)).
Proof.
  intros Hraw. unfold raw_message in Hraw.
  unfold sendEmailAlert, try_catch, bind at 1, lift at 1.
  destruct (subject pd) as [e1|subj]; cbn [rbind] in Hraw.
  - injection Hraw as ->. reflexivity.
  - unfold bind at 1, lift at 1.
    destruct (emailBody w pd) as [e2|body]; cbn [rbind] in Hraw.
    + injection Hraw as ->. reflexivity.
    + discriminate Hraw.
Qed.

Lemma ToString_scalar (v : JsVal) :
  scalar v = true -> exists s, ToString v = inr s.
Proof.
  destruct v; cbn; try discriminate; intros _; eexists; reflexivity.
Qed.

Lemma ToNumber_scalar (v : JsVal) :
  scalar v = true -> exists x, ToNumber w v = inr x.
Proof.
  destruct v; cbn; try discriminate; intros _; eexists; reflexivity.
Qed.

Lemma or_default_scalar (v : JsVal) (lit : string) :
  scalar v = true -> scalar (or_default v lit) = true.
Proof. intros Hv. unfold or_default. now destruct (truthy v). Qed.

Lemma optional_string_scalar (v : JsVal) :
  optional_string v = true -> scalar v = true.
Proof. destruct v; cbn; try discriminate; reflexivity. Qed.

Lemma currency_text_label (c : JsVal) :
  optional_string c = true ->
  currency_text c = inr (JStr (currency_label c)).
Proof.
  destruct c; cbn; try discriminate; intros _; try reflexivity.
  unfold or_default. cbn.
  destruct s as [|ch s]; [reflexivity|]. reflexivity.
Qed.

(** Every well-formed record renders. *)
Lemma emailBody_well_formed (pd : PaymentData) :
  well_formed pd = true ->
  exists name email amt method code msg pid secs,
    ToString (or_default (customer_name pd) "Unknown") = inr name
    /\ ToString (or_default (customer_email pd) "Not provided") = inr email
    /\ ToNumber w (amount pd) = inr amt
    /\ ToString (or_default (payment_method_type pd) "Unknown") = inr method
    /\ ToString (or_default (failure_code pd) "Not provided") = inr code
    /\ ToString (or_default (failure_message pd) "No details provided")
       = inr msg
    /\ ToString (payment_intent_id pd) = inr pid
    /\ ToNumber w (created pd) = inr secs
    /\ emailBody w pd =
       inr (trim
         (LF ++
          "A payment failure has been detected in your Stripe account:"
          ++ LF ++ LF ++
          "Customer: " ++ name ++ LF ++
          "Customer Email: " ++ email ++ LF ++
          "Amount: $" ++ toFixed 2 (num_div amt 100) ++ " "
          ++ currency_label (currency pd) ++ LF ++
          "Payment Method: " ++ method ++ LF ++
          "Failure Code: " ++ code ++ LF ++
          "Failure Message: " ++ msg ++ LF ++
          "Payment Intent ID: " ++ pid ++ LF ++
          "Timestamp: " ++ toLocaleString w (num_mul secs 1000) ++ LF ++
          LF ++
          "Please review this failed payment in your Stripe dashboard:"
          ++ LF ++
          "https://dashboard.stripe.com/payments/" ++ pid ++ LF ++
          LF ++
          "---" ++ LF ++
          "Automated alert from Stripe Payment Monitor" ++ LF ++
          "    ")).
Proof.
  unfold well_formed. rewrite !andb_true_iff.
  intros [[[[[[[[Hid Hamt] Hcur] Hcode] Hmsg] Hmeth] Hcrt] Hname] Hemail].
  apply optional_string_scalar in Hname, Hemail.
  destruct (ToString_scalar _ (or_default_scalar _ "Unknown" Hname))
    as [name Hn].
  destruct (ToString_scalar _ (or_default_scalar _ "Not provided" Hemail))
    as [email He].
  destruct (ToNumber_scalar _ Hamt) as [amt Ha].
  destruct (ToString_scalar _ (or_default_scalar _ "Unknown" Hmeth))
    as [method Hm].
  destruct (ToString_scalar _ (or_default_scalar _ "Not provided" Hcode))
    as [code Hc].
  destruct (ToString_scalar _
              (or_default_scalar _ "No details provided" Hmsg))
    as [msg Hg].
  destruct (ToString_scalar _ Hid) as [pid Hp].
  destruct (ToNumber_scalar _ Hcrt) as [secs Hs].
  exists name, email, amt, method, code, msg, pid, secs.
  repeat (split; [assumption|]).
  unfold emailBody.
  rewrite Hn, He, Ha, (currency_text_label _ Hcur), Hm, Hc, Hg, Hp, Hs.
  reflexivity.
Qed.

Lemma raw_message_well_formed (pd : PaymentData) :
  well_formed pd = true -> exists raw, raw_message w pd = inr raw.
Proof.
  intros Hwf.
  destruct (emailBody_well_formed pd Hwf)
    as (name & email & amt & method & code & msg & pid & secs & _ & _ & _
        & _ & _ & _ & _ & _ & Hbody).
  unfold well_formed in Hwf. rewrite !andb_true_iff in Hwf.
  destruct Hwf as [[_ Hname] _].
  destruct (ToString_scalar _
              (or_default_scalar _ "Unknown Customer"
                 (optional_string_scalar _ Hname))) as [subj Hsubj].
  unfold raw_message, subject. rewrite Hsubj. cbn [rbind rret].
  rewrite Hbody. eexists. reflexivity.
Qed.





End AlertSender.

(** ** The webhook handler *)

Section Webhook.

Variable w : World.

Lemma is_failure_type_kinds (ty : string) :
  In ty failure_kinds -> is_failure_type (JStr ty) = true.
Proof.
  intros [<-|[<-|[<-|[]]]]; reflexivity.
Qed.

Lemma processing_failed_returns (e : JsError) (st : State) :
  exists st', processing_failed w e st = (inr tt, st').
Proof. eexists. reflexivity. Qed.

(** What the handler does once the event is verified and logged. *)
Lemma webhook_verified (req : Request) (st : State) (event : JsVal)
      (ty : JsVal) (tys : string) :
  constructEvent w (req_body req) (stripe_signature req)
    (STRIPE_WEBHOOK_SECRET (env w)) = inr event ->
  get_prop event "type" = inr ty ->
  ToString ty = inr tys ->
  let st1 :=
    snd (log w ("Received Stripe webhook event: " ++ tys) "info" st) in
  webhook w req st =
  (inr (mkResponse 200
          (SendJson (JObj [("received", JBool true); ("type", ty)]))),
   if is_failure_type ty
   then snd (try_catch (process_failure w event) (processing_failed w) st1)
   else st1).
Proof.
  intros Hce Hty Hts st1.
  unfold webhook, bind at 1, try_catch at 1.
  unfold bind at 1, lift at 1. rewrite Hce.
  unfold bind at 1, lift at 1. rewrite Hty.
  unfold bind at 1, lift at 1. rewrite Hts.
  unfold bind at 1. unfold log at 1. cbv beta iota zeta.
  unfold ret at 1.
  unfold bind at 1, lift at 1. rewrite Hty.
  unfold bind at 1.
  destruct (is_failure_type ty).
  - unfold try_catch. subst st1. unfold log. cbn [snd].
    match goal with
    | |- context [process_failure w event ?s] =>
        destruct (process_failure w event s) as [[e|[]] st2]
    end; reflexivity.
  - reflexivity.
Qed.

(** Whatever the request and the collaborators do, the handler ends with a
    response: nothing it runs can throw outside its two [try] blocks. *)
Lemma webhook_always_responds (req : Request) (st : State) :
  exists response st', webhook w req st = (inr response, st').
Proof.
  destruct (constructEvent w (req_body req) (stripe_signature req)
              (STRIPE_WEBHOOK_SECRET (env w))) as [err|event] eqn:Hce.
  { unfold webhook, bind at 1, try_catch at 1.
    unfold bind at 1, lift at 1. rewrite Hce.
    eexists; eexists; reflexivity. }
  destruct (get_prop event "type") as [err|ty] eqn:Hty.
  { unfold webhook, bind at 1, try_catch at 1.
    unfold bind at 1, lift at 1. rewrite Hce.
    unfold bind at 1, lift at 1. rewrite Hty.
    eexists; eexists; reflexivity. }
  destruct (ToString ty) as [err|tys] eqn:Hts.
  { unfold webhook, bind at 1, try_catch at 1.
    unfold bind at 1, lift at 1. rewrite Hce.
    unfold bind at 1, lift at 1. rewrite Hty.
    unfold bind at 1, lift at 1. rewrite Hts.
    eexists; eexists; reflexivity. }
  rewrite (webhook_verified req st event ty tys Hce Hty Hts).
  eexists; eexists; reflexivity.
Qed.

(** C1.  For every webhook request whose signature verification succeeds
    and whose event type is one of the three failure kinds, the handler
    answers 200 with [{received: true, type}], whatever the customer
    lookup, the normalization and the mail submission do: no internal
    error reaches the response. *)
Theorem webhook_acknowledges (req : Request) (st : State) (event : JsVal)
        (ty : string) :
  constructEvent w (req_body req) (stripe_signature req)
    (STRIPE_WEBHOOK_SECRET (env w)) = inr event ->
  get_prop event "type" = inr (JStr ty) ->
  In ty failure_kinds ->
  exists st', webhook w req st = (inr (ok_response ty), st').
Proof.
  intros Hce Hty Hin.
  rewrite (webhook_verified req st event (JStr ty) ty Hce Hty eq_refl).
  eexists. reflexivity.
Qed.

(** C2.  For every webhook request whose signature verification fails,
    the handler answers 400 with a body that contains the verifier's
    message, logs the failure at level error, and does nothing else: the
    state after the request is the state after that one [log] call, so no
    message was handed to the mail client and [sendEmailAlert], which
    always logs, did not run. *)
Theorem webhook_rejects_bad_signature (req : Request) (st : State)
        (err : JsError) :
  constructEvent w (req_body req) (stripe_signature req)
    (STRIPE_WEBHOOK_SECRET (env w)) = inl err ->
  let rejected :=
    log w ("Webhook signature verification failed: " ++ emessage err)
      "error" st in
  webhook w req st =
    (inr (mkResponse 400 (SendText ("Webhook Error: " ++ emessage err))),
     snd rejected)
  /\ Contains (emessage err) ("Webhook Error: " ++ emessage err)
  /\ outbox (snd (webhook w req st)) = outbox st
  /\ lookups (snd (webhook w req st)) = lookups st
  /\ hd_error (recentLogs (snd (webhook w req st)))
     = Some (mkLogEntry (clock w (clock_reads st)) "error"
               ("Webhook signature verification failed: " ++ emessage err)).
Proof.
  intros Hce rejected.
  assert (Hrun : webhook w req st =
    (inr (mkResponse 400 (SendText ("Webhook Error: " ++ emessage err))),
     snd rejected)).
  { unfold webhook, bind at 1, try_catch at 1.
    unfold bind at 1, lift at 1. rewrite Hce. reflexivity. }
  split; [exact Hrun|].
  split.
  { exists "Webhook Error: ", EmptyString.
    clear. induction (emessage err) as [|c s IH]; [reflexivity|].
    cbn in *. injection IH as IH. now rewrite <- IH. }
  rewrite Hrun. cbn [snd]. subst rejected.
  split; [reflexivity|]. split; [reflexivity|].
  apply log_head.
Qed.

Lemma lookup_customer_failed (eventData ref : JsVal) (pd : PaymentData)
      (err : JsError) (st : State) :
  get_prop eventData "customer" = inr ref ->
  truthy ref = true ->
  customers_retrieve w ref = inl err ->
  lookup_customer w eventData pd st =
  (inr pd,
   snd (log w ("Failed to retrieve customer info: " ++ emessage err)
          "error" (add_lookup st ref))).
Proof.
  intros Href Htruthy Hfail.
  unfold lookup_customer, bind at 1, lift at 1. rewrite Href, Htruthy.
  unfold try_catch, bind at 1, stripe_customers_retrieve at 1.
  rewrite Hfail. reflexivity.
Qed.

Lemma process_failure_after_lookup (event data eventData : JsVal)
      (pd pd' : PaymentData) (st st' : State) :
  get_prop event "data" = inr data ->
  get_prop data "object" = inr eventData ->
  extract_paymentData eventData = inr pd ->
  lookup_customer w eventData pd st = (inr pd', st') ->
  process_failure w event st = alert_and_report w event pd' st'.
Proof.
  intros Hdata Hobj Hpd Hlookup.
  unfold process_failure, bind at 1, lift at 1. rewrite Hdata.
  unfold bind at 1, lift at 1. rewrite Hobj.
  unfold bind at 1, lift at 1. rewrite Hpd.
  unfold bind at 1. rewrite Hlookup. reflexivity.
Qed.

(** When the record renders, [alert_and_report] hands its message to the
    mail client, once, whatever else happens. *)
Lemma alert_and_report_attempts (event : JsVal) (pd : PaymentData)
      (raw : string) (st : State) :
  raw_message w pd = inr raw ->
  outbox (snd (try_catch (alert_and_report w event pd)
                 (processing_failed w) st))
  = (outbox st ++ [raw])%list.
Proof.
  intros Hraw.
  destruct (raw_message_ok_parts w pd raw Hraw)
    as (subj & body & pid & amt & _ & _ & _ & Hpid & Hamt).
  unfold try_catch, alert_and_report, bind at 1, lift at 1. rewrite Hpid.
  unfold bind at 1, lift at 1. rewrite Hamt.
  unfold bind at 1, log at 1. cbv beta iota zeta.
  unfold bind at 1.
  rewrite (sendEmailAlert_rendered w pd _ raw pid Hraw Hpid).
  destruct (gmail_send w raw) as [e|u]; cbv beta iota.
  - reflexivity.
  - unfold bind at 1, lift at 1.
    destruct (get_prop event "type") as [e|ty]; [reflexivity|].
    unfold bind at 1, lift at 1.
    destruct (ToString ty) as [e|tys]; reflexivity.
Qed.

(** C9.  For every verified failure event that carries a customer
    reference, when the lookup at the payment gateway fails the handler
    logs the error at level error and goes on with the extracted record,
    whose customer name and email are the empty string: the rest of the
    processing (the alert and its report) runs on that record, its message
    is handed to the mail client whenever the record renders, and the
    response is the same 200 acknowledgement. *)
Theorem lookup_failure_is_not_fatal (req : Request) (st : State)
        (event data eventData ref : JsVal) (ty : string) (err : JsError) :
  constructEvent w (req_body req) (stripe_signature req)
    (STRIPE_WEBHOOK_SECRET (env w)) = inr event ->
  get_prop event "type" = inr (JStr ty) ->
  In ty failure_kinds ->
  get_prop event "data" = inr data ->
  get_prop data "object" = inr eventData ->
  get_prop eventData "customer" = inr ref ->
  truthy ref = true ->
  customers_retrieve w ref = inl err ->
  let st1 :=
    snd (log w ("Received Stripe webhook event: " ++ ty) "info" st) in
  let st2 :=
    snd (log w ("Failed to retrieve customer info: " ++ emessage err)
           "error" (add_lookup st1 ref)) in
  exists pd,
    extract_paymentData eventData = inr pd
    /\ customer_name pd = JStr EmptyString
    /\ customer_email pd = JStr EmptyString
    /\ lookup_customer w eventData pd st1 = (inr pd, st2)
    /\ hd_error (recentLogs st2)
       = Some (mkLogEntry (clock w (clock_reads st1)) "error"
                 ("Failed to retrieve customer info: " ++ emessage err))
    /\ webhook w req st =
       (inr (ok_response ty),
        snd (try_catch (alert_and_report w event pd) (processing_failed w)
               st2))
    /\ (forall raw,
          raw_message w pd = inr raw ->
          outbox (snd (webhook w req st)) = (outbox st ++ [raw])%list).
Proof.
  intros Hce Hty Hin Hdata Hobj Href Htruthy Hfail st1 st2.
  pose proof (get_prop_ok_not_nullish _ _ _ Href) as Hobject.
  pose proof (extract_paymentData_defined eventData Hobject) as Hpd.
  cbv zeta in Hpd.
  match type of Hpd with
  | _ = inr ?record => set (pd := record) in Hpd
  end.
  assert (Hname : customer_name pd = JStr EmptyString) by reflexivity.
  assert (Hemail : customer_email pd = JStr EmptyString) by reflexivity.
  exists pd.
  assert (Hlookup : lookup_customer w eventData pd st1 = (inr pd, st2))
    by now apply lookup_customer_failed.
  assert (Hrun : webhook w req st =
                 (inr (ok_response ty),
                  snd (try_catch (alert_and_report w event pd)
                         (processing_failed w) st2))).
  { rewrite (webhook_verified req st event (JStr ty) ty Hce Hty eq_refl).
    rewrite (is_failure_type_kinds ty Hin).
    fold st1. unfold try_catch.
    rewrite (process_failure_after_lookup event data eventData pd pd
               st1 st2 Hdata Hobj Hpd Hlookup).
    reflexivity. }
  repeat (split; [assumption|]).
  split; [exact (log_head w _ _ (add_lookup st1 ref))|].
  split; [exact Hrun|].
  intros raw Hraw. rewrite Hrun. cbn [snd].
  now rewrite (alert_and_report_attempts event pd raw st2 Hraw).
Qed.

End Webhook.

(** * Further properties of the service *)

(** ** The log as a sliding window *)

Section LogWindow.

Variable w : World.

Lemma log_as_firstn (msg lvl : string) (st : State) :
  (List.length (recentLogs st) <= 100)%nat ->
  recentLogs (snd (log w msg lvl st))
  = firstn 100 (mkLogEntry (clock w (clock_reads st)) lvl msg :: recentLogs st).
Proof.
  intros Hlen. rewrite log_recentLogs. cbv zeta.
  destruct (Nat.ltb_spec 100
              (List.length (mkLogEntry (clock w (clock_reads st)) lvl msg
                              :: recentLogs st))) as [Hgt|Hle].
  - rewrite removelast_firstn_len. f_equal. cbn [List.length] in *. lia.
  - symmetry. apply firstn_all2. exact Hle.
Qed.

Lemma record_all_window (calls : list (string * string)) :
  recentLogs (record_all w calls initial_state)
  = firstn 100 (rev (entries_from w 0 calls)).
Proof.
  induction calls as [|[msg lvl] init IH] using rev_ind; [reflexivity|].
  rewrite record_all_app. cbn [record_all].
  rewrite log_as_firstn
    by (apply record_all_keeps_bound; cbn; lia).
  rewrite IH, record_all_clock_reads, entries_from_app.
  cbn [entries_from clock_reads initial_state].
  rewrite rev_app_distr. cbn [rev app].
  rewrite Nat.add_0_l.
  change (firstn 100 (?x :: ?l)) with (x :: firstn 99 l).
  f_equal. rewrite firstn_firstn. reflexivity.
Qed.

Lemma record_all_console (calls : list (string * string)) :
  forall st,
    console (record_all w calls st)
    = (console st ++ map line_of (entries_from w (clock_reads st) calls))%list.
Proof.
  induction calls as [|[msg lvl] rest IH]; intros st;
    cbn [record_all entries_from map].
  - now rewrite app_nil_r.
  - rewrite IH. cbn [log snd console clock_reads].
    rewrite <- app_assoc. reflexivity.
Qed.

(** X1.  After any number of [log] calls from the empty log, the array
    holds the most recent entries, newest first, cut at 100, while the
    console has every line that was printed, oldest first. *)
Theorem log_window (calls : list (string * string)) :
  let entries := entries_from w 0 calls in
  let st := record_all w calls initial_state in
  recentLogs st = firstn 100 (rev entries)
  /\ List.length (recentLogs st) = Nat.min 100 (List.length calls)
  /\ console st = map line_of entries.
Proof.
  cbv zeta. split; [apply record_all_window|]. split.
  - rewrite record_all_window, length_firstn, length_rev, entries_from_length.
    reflexivity.
  - now rewrite record_all_console.
Qed.

(** X2.  [GET /logs] after any number of [log] calls from the empty log
    shows the latest entries, newest first, at most 50 of them, and a total
    that is the number of calls capped at 100. *)
Theorem logs_after_records (calls : list (string * string)) :
  let st := record_all w calls initial_state in
  get_logs st =
  (inr (mkResponse 200
          (SendJson
             (JObj
                [("logs",
                  JArr (map entry_json
                          (firstn 50 (rev (entries_from w 0 calls)))));
                 ("total",
                  JNum (Z.of_nat (Nat.min 100 (List.length calls))))]))),
   st).
Proof.
  cbv zeta. unfold get_logs. rewrite slice_from_start by lia.
  rewrite record_all_window, firstn_firstn.
  rewrite length_firstn, length_rev, entries_from_length.
  reflexivity.
Qed.

End LogWindow.

(** ** What a request can do to the state *)

Section Effects.

Variable w : World.

Lemma step_within_refl (st : State) : step_within 0 0 st st.
Proof.
  split; [auto|].
  split; [exists []; now rewrite app_nil_r|].
  split; exists []; now rewrite app_nil_r.
Qed.

Lemma step_within_trans (k1 j1 k2 j2 : nat) (a b c : State) :
  step_within k1 j1 a b -> step_within k2 j2 b c ->
  step_within (k1 + k2) (j1 + j2) a c.
Proof.
  intros (Hb1 & (p1 & Hp1) & (s1 & Hs1 & Hn1) & (q1 & Hq1 & Hm1))
         (Hb2 & (p2 & Hp2) & (s2 & Hs2 & Hn2) & (q2 & Hq2 & Hm2)).
  split; [auto|].
  split; [exists (p1 ++ p2)%list; now rewrite Hp2, Hp1, app_assoc|].
  split.
  - exists (s1 ++ s2)%list. rewrite Hs2, Hs1, app_assoc, length_app.
    split; [reflexivity|lia].
  - exists (q1 ++ q2)%list. rewrite Hq2, Hq1, app_assoc, length_app.
    split; [reflexivity|lia].
Qed.

Lemma step_within_weaken (k j k' j' : nat) (a b : State) :
  (k <= k')%nat -> (j <= j')%nat ->
  step_within k j a b -> step_within k' j' a b.
Proof.
  intros Hk Hj (Hb & Hp & (s & Hs & Hn) & (q & Hq & Hm)).
  split; [exact Hb|]. split; [exact Hp|].
  split; [exists s; split; [exact Hs|lia]|exists q; split; [exact Hq|lia]].
Qed.

Lemma within_weaken {A} (k j k' j' : nat) (m : M A) :
  (k <= k')%nat -> (j <= j')%nat -> within k j m -> within k' j' m.
Proof. intros Hk Hj Hm st. eapply step_within_weaken; eauto. Qed.

Lemma within_ret {A} (a : A) : within 0 0 (ret a).
Proof. intros st. apply step_within_refl. Qed.

Lemma within_lift {A} (r : Res A) : within 0 0 (lift r).
Proof. intros st. apply step_within_refl. Qed.

Lemma within_log (msg lvl : string) : within 0 0 (log w msg lvl).
Proof.
  intros st. split; [apply log_keeps_bound|].
  split; [eexists; reflexivity|].
  split; exists []; cbn; now rewrite app_nil_r.
Qed.

Lemma within_send (raw : string) :
  within 1 0 (gmail_users_messages_send w raw).
Proof.
  intros st. split; [auto|].
  split; [exists []; cbn; now rewrite app_nil_r|].
  split; [exists [raw]; split; [reflexivity|cbn; lia]|].
  exists []; cbn; now rewrite app_nil_r.
Qed.

Lemma within_retrieve (id : JsVal) :
  within 0 1 (stripe_customers_retrieve w id).
Proof.
  intros st. split; [auto|].
  split; [exists []; cbn; now rewrite app_nil_r|].
  split; [exists []; cbn; now rewrite app_nil_r|].
  exists [id]; split; [reflexivity|cbn; lia].
Qed.

Lemma within_read_Date_now (Date_now : nat -> Z) :
  within 0 0 (read_Date_now Date_now).
Proof.
  intros st. split; [auto|].
  split; [exists []; cbn; now rewrite app_nil_r|].
  split; exists []; cbn; now rewrite app_nil_r.
Qed.

Lemma within_bind {A B} (k1 j1 k2 j2 : nat) (m : M A) (f : A -> M B) :
  within k1 j1 m -> (forall a, within k2 j2 (f a)) ->
  within (k1 + k2) (j1 + j2) (bind m f).
Proof.
  intros Hm Hf st. specialize (Hm st). unfold bind.
  destruct (m st) as [[e|a] st']; cbn [snd] in *.
  - eapply step_within_weaken; [| |exact Hm]; lia.
  - eapply step_within_trans; [exact Hm|apply Hf].
Qed.

Lemma within_try_catch {A} (k1 j1 k2 j2 : nat) (body : M A)
      (handler : JsError -> M A) :
  within k1 j1 body -> (forall e, within k2 j2 (handler e)) ->
  within (k1 + k2) (j1 + j2) (try_catch body handler).
Proof.
  intros Hb Hh st. specialize (Hb st). unfold try_catch.
  destruct (body st) as [[e|a] st']; cbn [snd] in *.
  - eapply step_within_trans; [exact Hb|apply Hh].
  - eapply step_within_weaken; [| |exact Hb]; lia.
Qed.

Lemma within_bind_quiet {A B} (k j : nat) (m : M A) (f : A -> M B) :
  within 0 0 m -> (forall a, within k j (f a)) -> within k j (bind m f).
Proof. intros Hm Hf. exact (within_bind 0 0 k j m f Hm Hf). Qed.

Lemma within_bind_last {A B} (k j : nat) (m : M A) (f : A -> M B) :
  within k j m -> (forall a, within 0 0 (f a)) -> within k j (bind m f).
Proof.
  intros Hm Hf.
  apply (within_weaken (k + 0) (j + 0)); [lia|lia|].
  now apply within_bind.
Qed.

End Effects.

(** Steps that neither mail nor look anything up. *)
Ltac quiet_steps :=
  repeat first
    [ apply within_ret
    | apply within_lift
    | apply within_log
    | apply within_read_Date_now
    | apply within_bind_quiet; [|intros]
    | match goal with
      | |- within _ _ (if ?b then _ else _) => destruct b
      end ].

Section HandlerEffects.

Variable w : World.
Variable Date_now : nat -> Z.

Lemma within_sendEmailAlert (pd : PaymentData) :
  within 1 0 (sendEmailAlert w pd).
Proof.
  unfold sendEmailAlert.
  apply (within_try_catch 1 0 0 0); [|intros e; quiet_steps].
  apply within_bind_quiet; [apply within_lift|intros subj].
  apply within_bind_quiet; [apply within_lift|intros body].
  apply within_bind_last; [apply within_send|intros u; quiet_steps].
Qed.

Lemma within_lookup_customer (eventData : JsVal) (pd : PaymentData) :
  within 0 1 (lookup_customer w eventData pd).
Proof.
  unfold lookup_customer.
  apply within_bind_quiet; [apply within_lift|intros ref].
  destruct (truthy ref); [|apply (within_weaken 0 0); [lia|lia|apply within_ret]].
  apply (within_try_catch 0 1 0 0); [|intros e; quiet_steps].
  apply within_bind_last; [apply within_retrieve|intros customer; quiet_steps].
Qed.

Lemma within_alert_and_report (event : JsVal) (pd : PaymentData) :
  within 1 0 (alert_and_report w event pd).
Proof.
  unfold alert_and_report.
  apply within_bind_quiet; [apply within_lift|intros pid].
  apply within_bind_quiet; [apply within_lift|intros amt].
  apply within_bind_quiet; [apply within_log|intros u].
  apply within_bind_last; [apply within_sendEmailAlert|].
  intros emailSent. quiet_steps.
Qed.

Lemma within_process_failure (event : JsVal) :
  within 1 1 (process_failure w event).
Proof.
  unfold process_failure.
  apply within_bind_quiet; [apply within_lift|intros data].
  apply within_bind_quiet; [apply within_lift|intros eventData].
  apply within_bind_quiet; [apply within_lift|intros extracted].
  apply (within_bind 0 1 1 0).
  - apply within_lookup_customer.
  - intros pd. apply within_alert_and_report.
Qed.

Lemma within_webhook (req : Request) : within 1 1 (webhook w req).
Proof.
  unfold webhook.
  apply within_bind_quiet.
  { apply (within_try_catch 0 0 0 0); [quiet_steps|intros e; quiet_steps]. }
  intros [response|event]; [apply (within_weaken 0 0); [lia|lia|apply within_ret]|].
  apply within_bind_quiet; [apply within_lift|intros ty].
  apply within_bind_last; [|intros u; quiet_steps].
  destruct (is_failure_type ty).
  - apply (within_try_catch 1 1 0 0); [apply within_process_failure|].
    intros e. apply within_log.
  - apply (within_weaken 0 0); [lia|lia|apply within_ret].
Qed.

Lemma within_post_test : within 1 0 (post_test w Date_now).
Proof.
  unfold post_test.
  apply within_bind_quiet; [apply within_log|intros u].
  apply within_bind_quiet; [apply within_read_Date_now|intros now1].
  apply within_bind_quiet; [apply within_read_Date_now|intros now2].
  apply within_bind_last; [apply within_sendEmailAlert|].
  intros success. apply within_ret.
Qed.

Lemma within_health : within 0 0 (health w).
Proof.
  intros st. split; [auto|].
  split; [exists []; cbn; now rewrite app_nil_r|].
  split; exists []; cbn; now rewrite app_nil_r.
Qed.

Lemma within_error_middleware (error : JsError) :
  within 0 0 (error_middleware w error).
Proof. unfold error_middleware. quiet_steps. Qed.

Lemma within_listening (port : option string) :
  within 0 0 (listening w port).
Proof. unfold listening. quiet_steps. Qed.

Lemma within_handle (c : Call) :
  within (mails_of c) (asks_of c) (handle w Date_now c).
Proof.
  destruct c; cbn [handle mails_of asks_of].
  - intros st. apply step_within_refl.
  - apply within_health.
  - intros st. apply step_within_refl.
  - apply within_post_test.
  - apply within_webhook.
  - apply within_error_middleware.
Qed.

Lemma serve_within (calls : list Call) :
  forall st,
    step_within (list_sum (map mails_of calls)) (list_sum (map asks_of calls))
      st (serve w Date_now calls st).
Proof.
  induction calls as [|c rest IH]; intros st; cbn [serve map list_sum].
  - apply step_within_refl.
  - eapply step_within_trans; [apply within_handle|apply IH].
Qed.

(** X3.  Whatever the request, the event and the collaborators do, one
    run of the webhook handler hands at most one message to the mail client
    and makes at most one customer lookup; it only appends to the console,
    and it keeps the log within its capacity. *)
Theorem webhook_effects (req : Request) (st : State) :
  let st' := snd (webhook w req st) in
  ((List.length (recentLogs st) <= 100)%nat ->
   (List.length (recentLogs st') <= 100)%nat)
  /\ (exists printed, console st' = (console st ++ printed)%list)
  /\ (exists sent,
         outbox st' = (outbox st ++ sent)%list
         /\ (List.length sent <= 1)%nat)
  /\ (exists asked,
         lookups st' = (lookups st ++ asked)%list
         /\ (List.length asked <= 1)%nat).
Proof. exact (within_webhook req st). Qed.

(** X4.  In every state the service reaches, from start-up through any
    series of requests (status, health, logs, test, webhook, failing
    middleware), the activity log has at most 100 entries. *)
Theorem service_log_bounded (port : option string) (calls : list Call) :
  (List.length
     (recentLogs
        (serve w Date_now calls (snd (listening w port initial_state))))
   <= 100)%nat.
Proof.
  apply (serve_within calls).
  apply (within_listening port initial_state).
  cbn. lia.
Qed.

(** X5.  Over any series of requests the service hands the mail client at
    most one message per [/test] or [/webhook] request and none for the
    others, and asks the payment gateway for at most one customer per
    [/webhook] request. *)
Theorem service_mail_budget (calls : list Call) (st : State) :
  let st' := serve w Date_now calls st in
  (List.length (outbox st')
   <= List.length (outbox st) + list_sum (map mails_of calls))%nat
  /\ (List.length (lookups st')
      <= List.length (lookups st) + list_sum (map asks_of calls))%nat.
Proof.
  cbv zeta.
  destruct (serve_within calls st)
    as (_ & _ & (sent & Hsent & Hn) & (asked & Hasked & Hm)).
  rewrite Hsent, Hasked, !length_app. lia.
Qed.

End HandlerEffects.

(** ** Edges of the webhook handler *)

Section WebhookEdges.

Variable w : World.

Lemma is_failure_type_iff (v : JsVal) :
  is_failure_type v = true <-> exists ty, v = JStr ty /\ In ty failure_kinds.
Proof.
  split.
  - unfold is_failure_type, strict_eq_str. destruct v; try discriminate.
    rewrite !orb_true_iff, !String.eqb_eq.
    intros [[->| ->]| ->]; eexists; (split; [reflexivity|cbn; auto]).
  - intros (ty & -> & Hin). now apply is_failure_type_kinds.
Qed.

(** X6.  [GET /] advertises exactly the event types the webhook handler
    acts on: a value is in its [webhook_events] list if and only if the
    handler's type test accepts it. *)
Theorem advertised_events_are_handled (st : State) :
  exists events,
    response_field "webhook_events" (fst (get_root st)) = Some (JArr events)
    /\ forall v, In v events <-> is_failure_type v = true.
Proof.
  eexists. split; [reflexivity|].
  intros v. rewrite is_failure_type_iff. split.
  - intros [<-|[<-|[<-|[]]]]; eexists; (split; [reflexivity|cbn; auto]).
  - intros (ty & -> & [<-|[<-|[<-|[]]]]); cbn; auto.
Qed.

(** X7.  A verified event of any other type (or whose type is not a
    string) is acknowledged with 200 and its type, and leaves one log
    line behind: no record is built, no customer looked up, nothing
    mailed. *)
Theorem webhook_ignores_other_events (req : Request) (st : State)
        (event ty : JsVal) (tys : string) :
  constructEvent w (req_body req) (stripe_signature req)
    (STRIPE_WEBHOOK_SECRET (env w)) = inr event ->
  get_prop event "type" = inr ty ->
  ToString ty = inr tys ->
  (forall kind, In kind failure_kinds -> ty <> JStr kind) ->
  webhook w req st =
  (inr (mkResponse 200
          (SendJson (JObj [("received", JBool true); ("type", ty)]))),
   snd (log w ("Received Stripe webhook event: " ++ tys) "info" st)).
Proof.
  intros Hce Hty Hts Hother.
  rewrite (webhook_verified w req st event ty tys Hce Hty Hts).
  destruct (is_failure_type ty) eqn:Hkind; [|reflexivity].
  apply is_failure_type_iff in Hkind. destruct Hkind as (kind & -> & Hin).
  now elim (Hother kind Hin).
Qed.

(** X8.  The first [try] also covers the read of [event.type]: when the
    verified payload parses to [null] (or the SDK hands back [undefined]),
    the request is answered 400 and logged as a signature failure, with the
    runtime's message. *)
Theorem webhook_null_event (req : Request) (st : State) (event : JsVal) :
  constructEvent w (req_body req) (stripe_signature req)
    (STRIPE_WEBHOOK_SECRET (env w)) = inr event ->
  nullish event = true ->
  webhook w req st =
  (inr (mkResponse 400
          (SendText ("Webhook Error: " ++ type_error_read event "type"))),
   snd (log w ("Webhook signature verification failed: "
                 ++ type_error_read event "type") "error" st)).
Proof.
  intros Hce Hnull.
  unfold webhook, bind at 1, try_catch at 1.
  unfold bind at 1, lift at 1. rewrite Hce.
  unfold bind at 1, lift at 1.
  destruct event; try discriminate Hnull; reflexivity.
Qed.

Lemma process_failure_throws (event : JsVal) (e : JsError) (st : State) :
  extraction event = inl e -> process_failure w event st = (inl e, st).
Proof.
  unfold extraction, process_failure. intros H.
  unfold bind at 1, lift at 1.
  destruct (get_prop event "data") as [e1|data]; cbn [rbind] in H;
    [now injection H as ->|].
  unfold bind at 1, lift at 1.
  destruct (get_prop data "object") as [e2|eventData]; cbn [rbind] in H;
    [now injection H as ->|].
  unfold bind at 1, lift at 1. now rewrite H.
Qed.

(** X9.  When the embedded object of a failure event cannot be read
    ([event.data] or [event.data.object] is missing or [null]), the error is
    logged and the event is still acknowledged with 200; no customer is
    looked up and nothing is mailed. *)
Theorem webhook_survives_missing_object (req : Request) (st : State)
        (event : JsVal) (ty : string) (e : JsError) :
  constructEvent w (req_body req) (stripe_signature req)
    (STRIPE_WEBHOOK_SECRET (env w)) = inr event ->
  get_prop event "type" = inr (JStr ty) ->
  In ty failure_kinds ->
  extraction event = inl e ->
  webhook w req st =
  (inr (ok_response ty),
   snd (log w ("Error processing payment failure event: " ++ emessage e)
          "error"
          (snd (log w ("Received Stripe webhook event: " ++ ty) "info" st)))).
Proof.
  intros Hce Hty Hin Hthrow.
  rewrite (webhook_verified w req st event (JStr ty) ty Hce Hty eq_refl).
  rewrite (is_failure_type_kinds ty Hin).
  unfold try_catch. rewrite (process_failure_throws event e _ Hthrow).
  reflexivity.
Qed.

(** The embedded object cannot be read exactly when [event.data] or
    [event.data.object] is [undefined] or [null]. *)
Lemma extraction_fails_iff (event data : JsVal) :
  get_prop event "data" = inr data ->
  ((exists e, extraction event = inl e)
   <-> nullish data = true
       \/ nullish (prop_or_undefined data "object") = true).
Proof.
  intros Hdata. unfold extraction. rewrite Hdata. cbn [rbind].
  destruct (nullish data) eqn:Hn.
  - destruct (get_prop_throws data "object" Hn) as [e He]. rewrite He.
    split; [auto|]. intros _. now exists e.
  - rewrite (get_prop_defined data "object" Hn). cbn [rbind].
    destruct (nullish (prop_or_undefined data "object")) eqn:Ho.
    + split; [auto|]. intros _. unfold extract_paymentData.
      destruct (get_prop_throws (prop_or_undefined data "object") "id" Ho)
        as [e He].
      rewrite He. now exists e.
    + rewrite (extract_paymentData_defined _ Ho). cbv zeta.
      split; [intros [e He]; discriminate He|intros [H|H]; discriminate H].
Qed.



End WebhookEdges.

(** ** The text of the alert *)

Section AlertText.

Variable w : World.









(** X14.  A record whose currency is present and not a string cannot be
    rendered ([toUpperCase] is not a function there): [sendEmailAlert]
    submits nothing, logs the error and returns [false]. *)
Theorem sendEmailAlert_bad_currency (pd : PaymentData) (st : State) :
  optional_string (currency pd) = false ->
  exists e,
    raw_message w pd = inl e
    /\ sendEmailAlert w pd st =
       (inr false,
        snd (log w ("Failed to send email alert: " ++ emessage e) "error"
               st))
    /\ outbox (snd (sendEmailAlert w pd st)) = outbox st.
Proof.
  intros Hcur.
  assert (Hthrow : exists e, currency_text (currency pd) = inl e)
    by (destruct (currency pd); try discriminate Hcur; eexists; reflexivity).
  destruct Hthrow as [ec Hec].
  assert (Hbody : exists e, emailBody w pd = inl e).
  { unfold emailBody.
    destruct (ToString (or_default (customer_name pd) "Unknown"));
      cbn [rbind]; [eexists; reflexivity|].
    destruct (ToString (or_default (customer_email pd) "Not provided"));
      cbn [rbind]; [eexists; reflexivity|].
    destruct (ToNumber w (amount pd)); cbn [rbind]; [eexists; reflexivity|].
    rewrite Hec. eexists; reflexivity. }
  destruct Hbody as [eb Heb].
  assert (Hraw : exists e, raw_message w pd = inl e).
  { unfold raw_message. destruct (subject pd); cbn [rbind];
      [eexists; reflexivity|].
    rewrite Heb. eexists; reflexivity. }
  destruct Hraw as [e He]. exists e.
  split; [exact He|].
  rewrite (sendEmailAlert_unrendered w pd st e He).
  split; reflexivity.
Qed.

End AlertText.

(** ** The encoding of the message *)

(** Arithmetic on the four sextets of three bytes. *)
Ltac sextets := zify; Z.to_euclidean_division_equations; lia.

Section Encoding.

Lemma byte_back (a : ascii) (v : N) : v = N_of_ascii a -> ascii_of_N v = a.
Proof. intros ->. apply ascii_N_embedding. Qed.

Lemma sextet_alphabet (n : N) :
  (n < 64)%N ->
  b64url_value (url_of (b64_char n)) = Some n
  /\ Ascii.eqb (url_of (b64_char n)) "=" = false.
Proof.
  intros Hn.
  assert (Hall : forallb sextet_ok (map N.of_nat (seq 0 64)) = true)
    by (vm_compute; reflexivity).
  rewrite forallb_forall in Hall.
  assert (Hin : In n (map N.of_nat (seq 0 64))).
  { rewrite <- (Nnat.N2Nat.id n). apply in_map, in_seq. lia. }
  specialize (Hall n Hin). unfold sextet_ok in Hall.
  destruct (b64url_value (url_of (b64_char n))) as [m|]; [|discriminate].
  apply andb_true_iff in Hall. destruct Hall as [Hm Hpad].
  apply N.eqb_eq in Hm. subst m.
  split; [reflexivity|]. now apply negb_true_iff.
Qed.

Lemma replace_both (c : ascii) (s : string) :
  replace_all "/" "_" (replace_all "+" "-" (String c s))
  = String (url_of c) (replace_all "/" "_" (replace_all "+" "-" s)).
Proof. reflexivity. Qed.

Lemma strip_keeps (c : ascii) (s : string) :
  Ascii.eqb c "=" = false ->
  strip_trailing_eq (String c s) = String c (strip_trailing_eq s).
Proof. intros Hc. cbn [strip_trailing_eq]. now rewrite Hc. Qed.

Lemma encodedMessage_three (a b c : ascii) (rest : string) :
  let x := N_of_ascii a in
  let y := N_of_ascii b in
  let z := N_of_ascii c in
  encodedMessage (String a (String b (String c rest)))
  = String (url_of (b64_char (x / 4)))
      (String (url_of (b64_char ((x mod 4) * 16 + y / 16)))
         (String (url_of (b64_char ((y mod 16) * 4 + z / 64)))
            (String (url_of (b64_char (z mod 64)))
               (encodedMessage rest))))%N.
Proof.
  cbv zeta. pose proof (N_ascii_bounded a). pose proof (N_ascii_bounded b).
  pose proof (N_ascii_bounded c).
  unfold encodedMessage. cbn [base64]. rewrite !replace_both.
  rewrite !strip_keeps; [reflexivity| | | |];
    apply sextet_alphabet; sextets.
Qed.

Lemma encodedMessage_two (a b : ascii) :
  let x := N_of_ascii a in
  let y := N_of_ascii b in
  encodedMessage (String a (String b EmptyString))
  = String (url_of (b64_char (x / 4)))
      (String (url_of (b64_char ((x mod 4) * 16 + y / 16)))
         (String (url_of (b64_char ((y mod 16) * 4))) EmptyString))%N.
Proof.
  cbv zeta. pose proof (N_ascii_bounded a). pose proof (N_ascii_bounded b).
  unfold encodedMessage. cbn [base64]. rewrite !replace_both.
  do 3 (rewrite strip_keeps
          by (apply sextet_alphabet; sextets)).
  reflexivity.
Qed.

Lemma encodedMessage_one (a : ascii) :
  let x := N_of_ascii a in
  encodedMessage (String a EmptyString)
  = String (url_of (b64_char (x / 4)))
      (String (url_of (b64_char ((x mod 4) * 16))) EmptyString)%N.
Proof.
  cbv zeta. pose proof (N_ascii_bounded a).
  unfold encodedMessage. cbn [base64]. rewrite !replace_both.
  do 2 (rewrite strip_keeps
          by (apply sextet_alphabet; sextets)).
  reflexivity.
Qed.

Lemma url_safe_sextet (n : N) :
  (n < 64)%N -> url_safe (url_of (b64_char n)) = true.
Proof.
  intros Hn. unfold url_safe.
  now rewrite (proj1 (sextet_alphabet n Hn)).
Qed.

Lemma encodedMessage_decodes_upto (n : nat) :
  forall message,
    (String.length message <= n)%nat ->
    base64url_decode (encodedMessage message) = Some message
    /\ string_forall url_safe (encodedMessage message) = true.
Proof.
  induction n as [|n IH]; intros message Hlen.
  { destruct message; [split; reflexivity|cbn in Hlen; lia]. }
  destruct message as [|a [|b [|c rest]]].
  - split; reflexivity.
  - pose proof (N_ascii_bounded a) as Ha.
    rewrite encodedMessage_one. cbv zeta.
    cbn [base64url_decode string_forall].
    rewrite !(fun k H => proj1 (sextet_alphabet k H)),
            !url_safe_sextet
      by sextets.
    split; [|reflexivity].
    f_equal. f_equal. apply byte_back. sextets.
  - pose proof (N_ascii_bounded a) as Ha.
    pose proof (N_ascii_bounded b) as Hb.
    rewrite encodedMessage_two. cbv zeta.
    cbn [base64url_decode string_forall].
    rewrite !(fun k H => proj1 (sextet_alphabet k H)),
            !url_safe_sextet
      by sextets.
    split; [|reflexivity].
    f_equal. f_equal; [apply byte_back; sextets|].
    f_equal. apply byte_back. sextets.
  - pose proof (N_ascii_bounded a) as Ha.
    pose proof (N_ascii_bounded b) as Hb.
    pose proof (N_ascii_bounded c) as Hc.
    destruct (IH rest) as [Hdec Hsafe]; [cbn in Hlen; lia|].
    rewrite encodedMessage_three. cbv zeta.
    cbn [base64url_decode string_forall].
    rewrite !(fun k H => proj1 (sextet_alphabet k H)),
            !url_safe_sextet
      by sextets.
    rewrite Hdec, Hsafe.
    split; [|reflexivity].
    f_equal. f_equal; [apply byte_back; sextets|].
    f_equal; [apply byte_back; sextets|].
    f_equal. apply byte_back. sextets.
Qed.

(** X15.  The message handed to the mail client is unpadded URL-safe
    base64 of the text: every character is a letter, a digit, [-] or [_]
    (never [+], [/] or [=]), decoding it gives the text back, and so two
    different texts never have the same encoding. *)
Theorem encodedMessage_round_trip (message : string) :
  base64url_decode (encodedMessage message) = Some message
  /\ string_forall url_safe (encodedMessage message) = true
  /\ (forall other,
         encodedMessage other = encodedMessage message -> other = message).
Proof.
  destruct (encodedMessage_decodes_upto (String.length message) message
              (le_n _)) as [Hdec Hsafe].
  split; [exact Hdec|]. split; [exact Hsafe|].
  intros other Hsame.
  destruct (encodedMessage_decodes_upto (String.length other) other (le_n _))
    as [Hother _].
  rewrite Hsame, Hdec in Hother. now injection Hother.
Qed.

End Encoding.

(** ** The manual test and the handler's answers *)

Section TestEndpoint.

Variable w : World.
Variable Date_now : nat -> Z.


(** X17.  The webhook handler never lets an error escape and never answers
    with a server error: every request ends with a response whose status is
    200 or 400. *)
Theorem webhook_answers_200_or_400 (req : Request) (st : State) :
  exists response st',
    webhook w req st = (inr response, st')
    /\ (status response = 200 \/ status response = 400).
Proof.
  destruct (constructEvent w (req_body req) (stripe_signature req)
              (STRIPE_WEBHOOK_SECRET (env w))) as [err|event] eqn:Hce.
  { unfold webhook, bind at 1, try_catch at 1.
    unfold bind at 1, lift at 1. rewrite Hce.
    eexists; eexists; split; [reflexivity|right; reflexivity]. }
  destruct (get_prop event "type") as [err|ty] eqn:Hty.
  { unfold webhook, bind at 1, try_catch at 1.
    unfold bind at 1, lift at 1. rewrite Hce.
    unfold bind at 1, lift at 1. rewrite Hty.
    eexists; eexists; split; [reflexivity|right; reflexivity]. }
  destruct (ToString ty) as [err|tys] eqn:Hts.
  { unfold webhook, bind at 1, try_catch at 1.
    unfold bind at 1, lift at 1. rewrite Hce.
    unfold bind at 1, lift at 1. rewrite Hty.
    unfold bind at 1, lift at 1. rewrite Hts.
    eexists; eexists; split; [reflexivity|right; reflexivity]. }
  rewrite (webhook_verified w req st event ty tys Hce Hty Hts).
  eexists; eexists; split; [reflexivity|left; reflexivity].
Qed.

End TestEndpoint.

(** * The statements at concrete inputs *)

Lemma log_capacity_witness :
  List.length sample_calls = 101%nat
  /\ (List.length
        (recentLogs (snd (log sample_world "ping" "info" initial_state)))
      <= 100)%nat
  /\ recentLogs (record_all sample_world sample_calls initial_state)
     = rev (tl (entries_from sample_world 0 sample_calls))
  /\ ~ In (mkLogEntry (sample_clock 0) "info" "ping")
         (recentLogs (record_all sample_world sample_calls initial_state)).
Proof.
  destruct (log_capacity sample_world) as (Hone & _ & Hfull).
  destruct (Hfull sample_calls eq_refl) as (Hlogs & _ & _ & Habsent).
  split; [reflexivity|].
  split; [apply Hone; cbn; lia|].
  split; [exact Hlogs|].
  apply Habsent; [reflexivity|].
  intros Hin. vm_compute in Hin.
  repeat (destruct Hin as [Hin|Hin]; [discriminate Hin|]).
  exact Hin.
Defined.

Lemma logs_endpoint_witness :
  nth_error
    (firstn 50 (recentLogs (record_all sample_world sample_calls initial_state)))
    0
  = nth_error (recentLogs (record_all sample_world sample_calls initial_state))
      0.
Proof.
  apply (proj2 (proj2 (logs_endpoint
                         (record_all sample_world sample_calls initial_state)))).
  lia.
Defined.

Lemma health_flags_witness :
  response_field "gmail_connected" (fst (health sample_world initial_state))
  = Some (JBool true).
Proof.
  apply (proj2 (proj1 (health_flags sample_world initial_state))).
  split; eexists; (split; [reflexivity|discriminate]).
Defined.

(** C10 as stated fails: with [GMAIL_CLIENT_ID] set to the empty string and
    [GMAIL_REFRESH_TOKEN] set, both variables are set and [gmail_connected]
    is [false]. *)
Lemma health_set_but_empty :
  is_set (GMAIL_CLIENT_ID empty_client_id_env) = true
  /\ is_set (GMAIL_REFRESH_TOKEN empty_client_id_env) = true
  /\ response_field "gmail_connected"
       (fst (health (with_env sample_world empty_client_id_env) initial_state))
     = Some (JBool false).
Proof. repeat split. Qed.


Lemma normalizer_never_raises_witness :
  nullish (JObj []) = false
  /\ exists pd,
      extract_paymentData (JObj []) = inr pd
      /\ amount pd = JUndefined
      /\ currency pd = JUndefined
      /\ customer_name pd = JStr EmptyString.
Proof.
  split; [reflexivity|].
  destruct (normalizer_never_raises (JObj []) eq_refl)
    as (pd & Hpd & Hname & _ & Hamount & Hcurrency & _).
  exists pd. split; [exact Hpd|].
  split; [apply Hamount; reflexivity|].
  split; [apply Hcurrency; reflexivity|exact Hname].
Defined.



Lemma webhook_acknowledges_witness :
  constructEvent sample_world (req_body sample_request)
    (stripe_signature sample_request)
    (STRIPE_WEBHOOK_SECRET (env sample_world)) = inr sample_event
  /\ In "payment_intent.payment_failed" failure_kinds
  /\ exists st',
      webhook sample_world sample_request initial_state
      = (inr (ok_response "payment_intent.payment_failed"), st').
Proof.
  split; [reflexivity|]. split; [cbn; auto|].
  apply (webhook_acknowledges sample_world sample_request initial_state
           sample_event "payment_intent.payment_failed");
    [reflexivity|reflexivity|cbn; auto].
Defined.

Lemma webhook_rejects_bad_signature_witness :
  status (mkResponse 400 (SendText EmptyString)) = 400
  /\ fst (webhook rejecting_world sample_request initial_state)
     = inr (mkResponse 400
              (SendText
                 "Webhook Error: No signatures found matching the expected signature"))
  /\ outbox (snd (webhook rejecting_world sample_request initial_state)) = [].
Proof.
  destruct (webhook_rejects_bad_signature rejecting_world sample_request
              initial_state
              (mkError "No signatures found matching the expected signature")
              eq_refl)
    as (Hrun & _ & Houtbox & _).
  split; [reflexivity|].
  split; [now rewrite Hrun|exact Houtbox].
Defined.

Lemma lookup_failure_is_not_fatal_witness :
  customers_retrieve sample_world (JStr "cus_9")
  = inl (mkError "No such customer: cus_9")
  /\ fst (webhook sample_world sample_request initial_state)
     = inr (ok_response "payment_intent.payment_failed")
  /\ List.length
       (outbox (snd (webhook sample_world sample_request initial_state)))
     = 1%nat.
Proof.
  split; [reflexivity|].
  destruct (lookup_failure_is_not_fatal sample_world sample_request
              initial_state sample_event
              (JObj [("object", sample_object_with_customer)])
              sample_object_with_customer (JStr "cus_9")
              "payment_intent.payment_failed"
              (mkError "No such customer: cus_9")
              eq_refl eq_refl (or_introl eq_refl) eq_refl eq_refl eq_refl
              eq_refl eq_refl)
    as (pd & Hpd & _ & _ & _ & _ & Hrun & Hsent).
  split; [now rewrite Hrun|].
  destruct (raw_message_well_formed sample_world pd) as (raw & Hraw).
  { cbv in Hpd. injection Hpd as <-. reflexivity. }
  now rewrite (Hsent raw Hraw).
Defined.

Lemma webhook_ignores_other_events_witness :
  get_prop other_event "type" = inr (JStr "customer.created")
  /\ fst (webhook (world_with_event other_event) sample_request initial_state)
     = inr (mkResponse 200
              (SendJson (JObj [("received", JBool true);
                               ("type", JStr "customer.created")])))
  /\ outbox (snd (webhook (world_with_event other_event) sample_request
                    initial_state)) = [].
Proof.
  split; [reflexivity|].
  assert (Hother : forall kind,
             In kind failure_kinds -> JStr "customer.created" <> JStr kind)
    by (intros kind [<-|[<-|[<-|[]]]]; discriminate).
  rewrite (webhook_ignores_other_events (world_with_event other_event)
             sample_request initial_state other_event
             (JStr "customer.created") "customer.created"
             eq_refl eq_refl eq_refl Hother).
  split; reflexivity.
Defined.

Lemma webhook_null_event_witness :
  nullish JNull = true
  /\ fst (webhook (world_with_event JNull) sample_request initial_state)
     = inr (mkResponse 400
              (SendText
                 "Webhook Error: Cannot read properties of null (reading 'type')")).
Proof.
  split; [reflexivity|].
  now rewrite (webhook_null_event (world_with_event JNull) sample_request
                 initial_state JNull eq_refl eq_refl).
Defined.

Lemma webhook_survives_missing_object_witness :
  extraction bare_event
  = inl (mkError "Cannot read properties of undefined (reading 'object')")
  /\ fst (webhook (world_with_event bare_event) sample_request initial_state)
     = inr (ok_response "charge.failed")
  /\ outbox (snd (webhook (world_with_event bare_event) sample_request
                    initial_state)) = [].
Proof.
  split; [reflexivity|].
  rewrite (webhook_survives_missing_object (world_with_event bare_event)
             sample_request initial_state bare_event "charge.failed"
             (mkError "Cannot read properties of undefined (reading 'object')")
             eq_refl eq_refl (or_intror (or_intror (or_introl eq_refl)))
             eq_refl).
  split; reflexivity.
Defined.





Lemma sendEmailAlert_bad_currency_witness :
  optional_string (currency numeric_currency_record) = false
  /\ fst (sendEmailAlert sample_world numeric_currency_record initial_state)
     = inr false
  /\ outbox (snd (sendEmailAlert sample_world numeric_currency_record
                    initial_state)) = [].
Proof.
  split; [reflexivity|].
  destruct (sendEmailAlert_bad_currency sample_world numeric_currency_record
              initial_state eq_refl) as (e & _ & Hrun & Hout).
  split; [now rewrite Hrun|exact Hout].
Defined.
